(** * BGP_Neighbors_Established_Revised.py: a shallow embedding

    The pyATS script has three sections that matter here: the common-setup
    subsection [connect], and the two tests [learn_bgp] and [check_bgp] of
    the [BGPNeighborsEstablished] testcase.

    Python objects are modelled as follows.
    - A Python dict is an object in a heap; the heap is a list of dict
      contents, a reference is an index into that list, allocation appends.
      A dict's contents are an association list in insertion order
      (CPython dicts preserve insertion order).
    - Values are strings ([str]), [bytes], references to dicts, [PNone]
      for the scalars JSON encodes ([None], booleans, numbers), and
      [POther] for any other object (a set, say). Lists are not modelled.
    - A section runs in a state monad with early exit: a Python exception or
      one of aetest's result APIs ([self.failed], [self.passed]) leaves the
      section at once. aetest's result APIs raise a signal, so the code after
      [self.failed(...)] in the same section does not run.
    - Strings are Rocq strings; [str.lower] and [str.capitalize] are
      modelled on the ASCII letters, as [bytes.lower] and
      [bytes.capitalize] are in Python.
    - [json.dumps] is modelled by the exceptions it raises. *)

From Stdlib Require Import String Ascii List Bool Arith Lia.
Import ListNotations.
Open Scope string_scope.
Open Scope list_scope.

(** ** Python values and dicts *)

Definition loc := nat.

Inductive pyval : Type :=
| PStr (s : string)          (** a str *)
| PRef (l : loc)             (** a dict *)
| PNone                      (** None, a bool, an int or a float *)
| PBytes (b : string)        (** a bytes object *)
| POther.                    (** any other object *)

(** Contents of a dict object: keys with values, in insertion order. *)
Definition dict := list (string * pyval).

(** [d.get(k)] on the contents of a mapping: the entry of key [k]. *)
Fixpoint aget {A : Type} (d : list (string * A)) (k : string) : option A :=
  match d with
  | [] => None
  | (k', v) :: d' => if String.eqb k k' then Some v else aget d' k
  end.

(** [d[k] = v]: an existing key keeps its position, a new key goes last. *)
Fixpoint aset {A : Type} (d : list (string * A)) (k : string) (v : A)
  : list (string * A) :=
  match d with
  | [] => [(k, v)]
  | (k', v') :: d' =>
      if String.eqb k k' then (k', v) :: d' else (k', v') :: aset d' k v
  end.

(** ** Strings *)

Definition lower_ascii (c : ascii) : ascii :=
  let n := nat_of_ascii c in
  if ((65 <=? n) && (n <=? 90))%nat then ascii_of_nat (n + 32)%nat else c.

Definition upper_ascii (c : ascii) : ascii :=
  let n := nat_of_ascii c in
  if ((97 <=? n) && (n <=? 122))%nat then ascii_of_nat (n - 32) else c.

(** [str.lower] *)
Fixpoint lower (s : string) : string :=
  match s with
  | EmptyString => EmptyString
  | String c s' => String (lower_ascii c) (lower s')
  end.

(** [str.capitalize]: first character upper case, the rest lower case. *)
Definition capitalize (s : string) : string :=
  match s with
  | EmptyString => EmptyString
  | String c s' => String (upper_ascii c) (lower s')
  end.

(** [v.lower()] on a str or a bytes object, which keeps its type. *)
Definition lower_val (v : pyval) : pyval :=
  match v with
  | PStr s => PStr (lower s)
  | PBytes b => PBytes (lower b)
  | _ => v
  end.

(** [v.capitalize()] on a str or a bytes object. *)
Definition py_capitalize (v : pyval) : pyval :=
  match v with
  | PStr s => PStr (capitalize s)
  | PBytes b => PBytes (capitalize b)
  | _ => v
  end.

(** ** Run state *)

(** A display row [[vrf_name, nbr, state.capitalize(), result]]; the
    state is a str, or a bytes object when [session_state] is one. *)
Record row := mkRow { r_vrf : string; r_peer : string; r_state : pyval;
                      r_result : string }.

(** What [json.dumps(failed_dict)] serialises: the device keys, each with
    the contents of its neighbor dict. The attribute values are kept as the
    references they are. *)
Definition fi_content := list (string * dict).

Inductive logmsg : Type :=
| LBanner (s : string)               (** log.info(banner(s)) *)
| LInfo (s : string)                 (** log.info(s) *)
| LTable (rows : list row)           (** log.info(tabulate(rows, ...)) *)
| LDump (fi : fi_content).           (** log.error(json.dumps(failed_dict)) *)

(** Calls to the external device layer. *)
Inductive event : Type :=
| EConnect (name : string)           (** device.connect() *)
| ELearn (name : string).            (** Bgp(device).learn() *)

(** A testbed device, with the behaviour of the external layer on it:
    [dev_connect] is [None] when [device.connect()] returns and [Some e]
    when it raises an exception whose text is [e]; [dev_learn] is
    [Some info] when the learnt [Bgp] object has an [info] attribute. *)
Record tb_device := mkDevice { dev_name : string;
                            dev_connect : option string;
                            dev_learn : option pyval }.

Record st := mkSt {
  heap : list dict;
  log : list logmsg;
  events : list event;
  p_devices : option (list tb_device);      (** self.parent.parameters['devices'] *)
  all_bgp_sessions : option pyval         (** self.all_bgp_sessions *)
}.

(** How a section ends early. *)
Inductive signal : Type :=
| SFailed (msg : string) (goto : list string)   (** self.failed(msg, goto=...) *)
| SPassed (msg : string)                         (** self.passed(msg) *)
| SErrored (exn : string).                       (** an uncaught exception *)

(** ** The section monad *)

Definition M (A : Type) : Type := st -> (A + signal) * st.

Definition ret {A} (a : A) : M A := fun s => (inl a, s).

Definition bind {A B} (m : M A) (f : A -> M B) : M B :=
  fun s => match m s with
           | (inl a, s') => f a s'
           | (inr e, s') => (inr e, s')
           end.

Notation "'let*' x ':=' m 'in' k" := (bind m (fun x => k))
  (at level 200, x name, m at level 100, k at level 200).

Definition raise {A} (e : signal) : M A := fun s => (inr e, s).

Definition failed {A} (msg : string) (goto : list string) : M A :=
  raise (SFailed msg goto).

Definition passed {A} (msg : string) : M A := raise (SPassed msg).

Definition emit (m : logmsg) : M unit :=
  fun s => (inl tt, mkSt (heap s) (log s ++ [m]) (events s) (p_devices s)
                          (all_bgp_sessions s)).

Definition record_event (e : event) : M unit :=
  fun s => (inl tt, mkSt (heap s) (log s) (events s ++ [e]) (p_devices s)
                          (all_bgp_sessions s)).

Fixpoint foldM {A B} (f : B -> A -> M B) (l : list A) (b : B) : M B :=
  match l with
  | [] => ret b
  | x :: l' => bind (f b x) (foldM f l')
  end.

(** ** Dict objects on the heap *)

(** [{}]: a fresh empty dict. *)
Definition new_dict : M pyval :=
  fun s => (inl (PRef (length (heap s))),
            mkSt (heap s ++ [[]]) (log s) (events s) (p_devices s)
                 (all_bgp_sessions s)).

Definition rd (h : list dict) (v : pyval) : option dict :=
  match v with
  | PRef l => nth_error h l
  | _ => None
  end.

(** Looking up a dict method on [v]: anything but a dict has none. *)
Definition deref (v : pyval) : M dict :=
  fun s => match rd (heap s) v with
           | Some d => (inl d, s)
           | None => (inr (SErrored "AttributeError"), s)
           end.

Fixpoint upd (h : list dict) (l : loc) (d : dict) : list dict :=
  match h, l with
  | [], _ => []
  | _ :: h', O => d :: h'
  | x :: h', S l' => x :: upd h' l' d
  end.

Definition write (l : loc) (d : dict) : M unit :=
  fun s => (inl tt, mkSt (upd (heap s) l d) (log s) (events s) (p_devices s)
                          (all_bgp_sessions s)).

(** [v.get(k, dflt)]: the method is looked up first, then the default
    argument is evaluated, then the call is made. *)
Definition py_get (v : pyval) (k : string) (dflt : M pyval) : M pyval :=
  let* d := deref v in
  let* x := dflt in
  ret (match aget d k with Some y => y | None => x end).

(** [v.items()] *)
Definition py_items (v : pyval) : M dict := deref v.

(** [v.lower()]: only a str or a bytes object has the method. *)
Definition py_lower (v : pyval) : M pyval :=
  match v with
  | PStr _ | PBytes _ => ret (lower_val v)
  | _ => raise (SErrored "AttributeError")
  end.

(** [v[k] = x] *)
Definition setitem (v : pyval) (k : string) (x : pyval) : M unit :=
  match v with
  | PRef l => let* d := deref v in write l (aset d k x)
  | _ => raise (SErrored "TypeError")
  end.

(** [v.setdefault(k, dflt)] *)
Definition setdefault (v : pyval) (k : string) (dflt : M pyval) : M pyval :=
  let* d := deref v in
  let* x := dflt in
  match aget d k with
  | Some y => ret y
  | None => let* _ := setitem v k x in ret x
  end.

(** ** External collaborators *)

(** [device.connect()]: [None] when it returns, [Some e] when it raises. *)
Definition device_connect (d : tb_device) : M (option string) :=
  let* _ := record_event (EConnect (dev_name d)) in ret (dev_connect d).

(** [bgp = Bgp(device); bgp.learn()] and [hasattr(bgp, 'info')]. *)
Definition device_learn (d : tb_device) : M (option pyval) :=
  let* _ := record_event (ELearn (dev_name d)) in ret (dev_learn d).

Definition set_devices (ds : list tb_device) : M unit :=
  fun s => (inl tt, mkSt (heap s) (log s) (events s) (Some ds)
                          (all_bgp_sessions s)).

Definition get_devices : M (list tb_device) :=
  fun s => match p_devices s with
           | Some ds => (inl ds, s)
           | None => (inr (SErrored "KeyError"), s)
           end.

Definition set_sessions (v : pyval) : M unit :=
  fun s => (inl tt, mkSt (heap s) (log s) (events s) (p_devices s) (Some v)).

Definition get_sessions : M pyval :=
  fun s => match all_bgp_sessions s with
           | Some v => (inl v, s)
           | None => (inr (SErrored "AttributeError"), s)
           end.

(** ** CommonSetup.connect *)

(** The [try] body: [device.connect()] then [device_list.append(device)];
    the [except] branch calls [self.failed(...)]. *)
Definition connect_one (device_list : list tb_device) (device : tb_device)
  : M (list tb_device) :=
  let* _ := emit (LBanner ("Connecting to device '" ++ dev_name device ++ "'")%string) in
  let* r := device_connect device in
  match r with
  | None => ret (device_list ++ [device])
  | Some e =>
      failed ("Failed to establish connection to '" ++ dev_name device
              ++ "': " ++ e)%string []
  end.

(** [Genie.init(testbed)] is the identity on the device list here. *)
Definition connect (testbed : list tb_device) : M unit :=
  let* device_list := foldM connect_one testbed [] in
  set_devices device_list.

(** ** BGPNeighborsEstablished.learn_bgp *)

Definition learn_one (sessions : pyval) (u : unit) (device : tb_device) : M unit :=
  let* _ := emit (LBanner ("Gathering BGP Information from " ++ dev_name device)%string) in
  let* info := device_learn device in
  match info with
  | Some i => setitem sessions (dev_name device) i
  | None =>
      failed ("Failed to learn BGP info from device " ++ dev_name device)%string
             ["common_cleanup"]
  end.

Definition learn_bgp : M unit :=
  let* sessions := new_dict in
  let* _ := set_sessions sessions in
  let* devices := get_devices in
  foldM (learn_one sessions) devices tt.

(** ** BGPNeighborsEstablished.check_bgp *)

(** [state == 'established']: a bytes object never equals a str. *)
Definition result_of (state : pyval) : string :=
  match state with
  | PStr s => if String.eqb s "established" then "Passed" else "Failed"
  | _ => "Failed"
  end.

(** The body of the innermost loop, for one [nbr, props]. *)
Definition check_neighbor (failed_dict : pyval) (device vrf_name : string)
  (results_table : list row) (np : string * pyval) : M (list row) :=
  let (nbr, props) := np in
  let* sv := py_get props "session_state" (ret (PStr "Unknown")) in
  let* state := py_lower sv in
  let result := result_of state in
  let* _ := (if String.eqb result "Failed" then
               let* inner := setdefault failed_dict device new_dict in
               setitem inner nbr props
             else ret tt) in
  ret (results_table ++ [mkRow vrf_name nbr (py_capitalize state) result]).

(** The body of the VRF loop, for one [vrf_name, vrf_data]. *)
Definition check_vrf (failed_dict : pyval) (device : string)
  (results_table : list row) (vp : string * pyval) : M (list row) :=
  let (vrf_name, vrf_data) := vp in
  let* neighbors := py_get vrf_data "neighbor" new_dict in
  let* items := py_items neighbors in
  foldM (check_neighbor failed_dict device vrf_name) items results_table.

(** [f"Device {device} BGP Neighbors:\n"] *)
Definition header (device : string) : string :=
  ("Device " ++ device ++ " BGP Neighbors:" ++ String "010" EmptyString)%string.

(** The body of the device loop, for one [device, bgp_info]. *)
Definition check_device (failed_dict : pyval) (results_table : list row)
  (dp : string * pyval) : M (list row) :=
  let (device, bgp_info) := dp in
  let* i := py_get bgp_info "instance" new_dict in
  let* df := py_get i "default" new_dict in
  let* vrfs_dict := py_get df "vrf" new_dict in
  let* items := py_items vrfs_dict in
  let* results_table := foldM (check_vrf failed_dict device) items results_table in
  let* _ := emit (LInfo (header device)) in
  let* _ := emit (LTable results_table) in
  ret results_table.

(** Lines 75-97: [failed_dict = {}], [results_table = []] and the loops. *)
Definition check_bgp_loops : M (pyval * list row) :=
  let* failed_dict := new_dict in
  let* sessions := get_sessions in
  let* items := py_items sessions in
  let* results_table := foldM (check_device failed_dict) items [] in
  ret (failed_dict, results_table).

(** The first exception of a sequence of steps; [None] when none raises. *)
Fixpoint first_error (es : list (option string)) : option string :=
  match es with
  | [] => None
  | Some e :: _ => Some e
  | None :: es' => first_error es'
  end.

(** The exception [json.dumps(v, indent=3)] raises, [None] when it
    returns. With [indent] set, [json] runs its Python encoder: it walks
    the items of a dict in order and stops at the first exception. A str
    and the scalars of [PNone] are encoded; bytes and any other object
    raise [TypeError] (not JSON serializable); a dict that is being
    encoded further up, one of [stack] (the encoder's [markers]), raises
    [ValueError] (circular reference). [fuel] bounds the nesting; it does
    not run out when it exceeds the number of objects
    ([json_error_no_recursion]). Python's limit on the recursion depth is
    not modelled, nor are references outside the heap, which Python does
    not have. *)
Fixpoint json_error (fuel : nat) (h : list dict) (stack : list loc) (v : pyval)
  : option string :=
  match v with
  | PStr _ | PNone => None
  | PBytes _ | POther => Some "TypeError"
  | PRef l =>
      if existsb (Nat.eqb l) stack then Some "ValueError" else
      match fuel with
      | O => Some "RecursionError"
      | S f =>
          match nth_error h l with
          | Some d => first_error (map (fun kv => json_error f h (l :: stack) (snd kv)) d)
          | None => None
          end
      end
  end.

(** [json.dumps(v, indent=3)], as far as raising goes. *)
Definition json_dumps (v : pyval) : M unit :=
  fun s => match json_error (S (length (heap s))) (heap s) [] v with
           | None => ret tt s
           | Some e => raise (SErrored e) s
           end.

(** [json.dumps(failed_dict, indent=3)]: it raises as [json_dumps] does;
    otherwise it serialises the devices with their neighbor dicts. *)
Definition dump_failed (failed_dict : pyval) : M fi_content :=
  let* _ := json_dumps failed_dict in
  let* d := deref failed_dict in
  foldM (fun acc (kv : string * pyval) =>
           let* inner := deref (snd kv) in ret (acc ++ [(fst kv, inner)]))
        d [].

(** Lines 99-103. *)
Definition check_verdict (failed_dict : pyval) : M unit :=
  let* d := deref failed_dict in
  match d with
  | _ :: _ =>
      let* dump := dump_failed failed_dict in
      let* _ := emit (LDump dump) in
      failed "Some BGP neighbors are not established." []
  | [] => passed "All BGP neighbors are established."
  end.

Definition check_bgp : M unit :=
  let* r := check_bgp_loops in
  check_verdict (fst r).

(** ** The run from the testcase on *)

(** A section's result: a body that returns is passed, a signal decides
    otherwise. *)
Inductive sec_result : Type :=
| RPassed
| RFailed (msg : string)
| RErrored (exn : string).

Definition result_of_signal (o : unit + signal) : sec_result :=
  match o with
  | inl _ => RPassed
  | inr (SPassed _) => RPassed
  | inr (SFailed m _) => RFailed m
  | inr (SErrored e) => RErrored e
  end.

Definition goto_of (o : unit + signal) : list string :=
  match o with
  | inr (SFailed _ g) => g
  | _ => []
  end.

(** CommonCleanup.clean_up *)
Definition clean_up : M unit := emit (LInfo "Aetest Common Cleanup").

Definition run_section (name : string) (m : M unit) (s : st)
  : (string * sec_result) * (unit + signal) * st :=
  let (o, s') := m s in ((name, result_of_signal o), o, s').

(** The testcase after a passed common setup: [learn_bgp], then
    [check_bgp] unless [learn_bgp] asked to go to [common_cleanup], then
    the common cleanup. *)
Definition run_testcase (s : st) : list (string * sec_result) * st :=
  let '(r1, o1, s1) := run_section "learn_bgp" learn_bgp s in
  if existsb (String.eqb "common_cleanup") (goto_of o1) then
    let '(r3, _, s3) := run_section "clean_up" clean_up s1 in ([r1; r3], s3)
  else
    let '(r2, _, s2) := run_section "check_bgp" check_bgp s1 in
    let '(r3, _, s3) := run_section "clean_up" clean_up s2 in ([r1; r2; r3], s3).

(** ** Building input heaps *)

#[local] Set Warnings "-register-all".

(** A nested dict literal, as the state-learning service returns it. *)
Inductive tree : Type :=
| TStr (s : string)
| TDict (kvs : list (string * tree)).

(** Allocates the dicts of a literal on the heap: children first. *)
Fixpoint build (t : tree) (h : list dict) : pyval * list dict :=
  match t with
  | TStr s => (PStr s, h)
  | TDict kvs =>
      let fix go (kvs : list (string * tree)) (h : list dict) : dict * list dict :=
          match kvs with
          | [] => ([], h)
          | (k, t') :: kvs' =>
              let (v, h1) := build t' h in
              let (d, h2) := go kvs' h1 in ((k, v) :: d, h2)
          end in
      let (d, h') := go kvs h in (PRef (length h'), h' ++ [d])
  end.

(** The testcase state after [learn_bgp] stored [sessions]. *)
Definition state_with (sessions : tree) : st :=
  let (v, h) := build sessions [] in mkSt h [] [] None (Some v).

(** A BGP snapshot with one default instance and the given VRFs, each a
    list of neighbors with their [session_state]. *)
Definition snapshot (vrfs : list (string * list (string * string))) : tree :=
  TDict [("instance", TDict [("default", TDict [("vrf",
    TDict (map (fun '(v, ns) =>
      (v, TDict [("neighbor", TDict (map (fun '(n, s) =>
             (n, TDict [("session_state", TStr s)])) ns))])) vrfs))])])].

(** ** Reading a snapshot without running the loops

    The neighbors that [check_bgp] visits, read off the heap along the same
    lookups ([.get(k, {})] at each level, [.get('session_state',
    'Unknown')] for the state). [None] means one of the lookups meets a
    value that is not a dict, or a state that is neither a str nor a
    bytes object. *)

Definition obind {A B} (o : option A) (f : A -> option B) : option B :=
  match o with Some a => f a | None => None end.

Fixpoint omap {A B} (f : A -> option B) (l : list A) : option (list B) :=
  match l with
  | [] => Some []
  | x :: l' => obind (f x) (fun y => obind (omap f l') (fun ys => Some (y :: ys)))
  end.

(** [d.get(k, {})], then used as a dict. *)
Definition sub (h : list dict) (d : dict) (k : string) : option dict :=
  match aget d k with None => Some [] | Some x => rd h x end.

Definition vrfs_of (h : list dict) (bgp_info : pyval) : option dict :=
  obind (rd h bgp_info) (fun d0 =>
  obind (sub h d0 "instance") (fun i =>
  obind (sub h i "default") (fun df => sub h df "vrf"))).

Definition neighbors_of (h : list dict) (vrf_data : pyval) : option dict :=
  obind (rd h vrf_data) (fun d => sub h d "neighbor").

Definition state_of (h : list dict) (props : pyval) : option pyval :=
  obind (rd h props) (fun d =>
    match aget d "session_state" with
    | None => Some (PStr "Unknown")
    | Some (PStr s) => Some (PStr s)
    | Some (PBytes b) => Some (PBytes b)
    | Some _ => None
    end).

(** One neighbor of a snapshot: its device, VRF, address, attribute dict
    and raw [session_state]. *)
Record occ := mkOcc { o_dev : string; o_vrf : string; o_nbr : string;
                      o_props : pyval; o_state : pyval }.

Definition vrf_occs (h : list dict) (device : string) (vp : string * pyval)
  : option (list occ) :=
  obind (neighbors_of h (snd vp)) (fun nbrs =>
    omap (fun np => obind (state_of h (snd np)) (fun s =>
                      Some (mkOcc device (fst vp) (fst np) (snd np) s))) nbrs).

Definition device_occs (h : list dict) (dp : string * pyval) : option (list occ) :=
  obind (vrfs_of h (snd dp)) (fun vrfs =>
    obind (omap (vrf_occs h (fst dp)) vrfs) (fun oss => Some (concat oss))).

(** The neighbors of every device of [all_bgp_sessions], grouped by device
    in iteration order. *)
Definition occurrences (h : list dict) (sessions : pyval)
  : option (list (string * list occ)) :=
  obind (rd h sessions) (fun items =>
    omap (fun dp => obind (device_occs h dp) (fun os => Some (fst dp, os))) items).

Definition all_occs (groups : list (string * list occ)) : list occ :=
  concat (map snd groups).

(** What the loop body makes of one neighbor. *)
Definition row_of (o : occ) : row :=
  mkRow (o_vrf o) (o_nbr o) (py_capitalize (lower_val (o_state o)))
        (result_of (lower_val (o_state o))).

Definition fails (o : occ) : bool :=
  String.eqb (result_of (lower_val (o_state o))) "Failed".

Definition fi_get (F : fi_content) (d : string) : dict :=
  match aget F d with Some inner => inner | None => [] end.

(** [failed_dict.setdefault(device, {})[nbr] = props] on the contents. *)
Definition fi_add (F : fi_content) (o : occ) : fi_content :=
  aset F (o_dev o) (aset (fi_get F (o_dev o)) (o_nbr o) (o_props o)).

Definition fi_step (F : fi_content) (o : occ) : fi_content :=
  if fails o then fi_add F o else F.

Definition fi_of (groups : list (string * list occ)) : fi_content :=
  fold_left fi_step (all_occs groups) [].


(** The per-device log lines: a header, then [results_table] as it stands
    after the device. *)
Fixpoint device_logs (acc : list row) (groups : list (string * list occ))
  : list logmsg :=
  match groups with
  | [] => []
  | (d, os) :: g' =>
      LInfo (header d) :: LTable (acc ++ map row_of os)
        :: device_logs (acc ++ map row_of os) g'
  end.

(** The two-level contents of [failed_dict] on the heap. *)
Definition fi_view (h : list dict) (failed_dict : pyval) : option fi_content :=
  obind (rd h failed_dict) (fun d =>
    omap (fun kv => obind (rd h (snd kv)) (fun inner => Some (fst kv, inner))) d).

(** [json.dumps] on a value of the input heap [h]. *)
Definition props_error (h : list dict) (v : pyval) : option string :=
  json_error (S (length h)) h [] v.

(** The first exception [json.dumps(failed_dict)] meets, read off the
    contents [F]: the attribute values of its neighbors, in order. *)
Definition fi_json_error (h : list dict) (F : fi_content) : option string :=
  first_error (map (fun kv => first_error (map (fun nv => props_error h (snd nv)) (snd kv))) F).

(** The attributes of the last failing occurrence of [nbr] under [device]. *)
Definition last_failing (os : list occ) (device nbr : string) : option pyval :=
  fold_left (fun acc o =>
    if fails o && String.eqb (o_dev o) device && String.eqb (o_nbr o) nbr
    then Some (o_props o) else acc) os None.

(** ** Example inputs *)

(** R1 with one established neighbor, R2 with one idle neighbor. *)
Definition ex_two : tree :=
  TDict [("R1", snapshot [("default", [("10.0.0.1", "Established")])]);
         ("R2", snapshot [("default", [("10.0.0.2", "Idle")])])].

(** R2 has 10.0.0.2 failing in VRF default and in VRF blue. *)
Definition ex_dup : tree :=
  TDict [("R1", snapshot [("default", [("10.0.0.1", "Established")])]);
         ("R2", snapshot [("default", [("10.0.0.2", "Idle")]);
                          ("blue", [("10.0.0.2", "Active");
                                    ("3.3.3.3", "ESTABLISHED")])])].

Definition ex_dup_state : st := state_with ex_dup.

Definition sessions_of (s : st) : pyval :=
  match all_bgp_sessions s with Some v => v | None => PNone end.

Definition items_of (s : st) : dict :=
  match rd (heap s) (sessions_of s) with Some d => d | None => [] end.

Definition groups_of (s : st) : list (string * list occ) :=
  match occurrences (heap s) (sessions_of s) with Some g => g | None => [] end.

(** A neighbor dict [{'session_state': 'Idle'}] at 0 and an empty
    [failed_dict] at 1. *)
Definition ex_props : dict := [("session_state", PStr "Idle")].

Definition ex_nbr_state : st := mkSt [ex_props; []] [] [] None None.

(** R1 with the single neighbor 10.0.0.1 of attribute dict [props] (at
    0), in VRF default of the default instance. *)
Definition one_neighbor (props : dict) : st :=
  mkSt [props; [("10.0.0.1", PRef 0)]; [("neighbor", PRef 1)];
        [("default", PRef 2)]; [("vrf", PRef 3)]; [("default", PRef 4)];
        [("instance", PRef 5)]; [("R1", PRef 6)]] [] [] None (Some (PRef 7)).

(** [props = {'session_state': 'Idle'}; props['me'] = props] *)
Definition ex_cyclic : st :=
  one_neighbor [("session_state", PStr "Idle"); ("me", PRef 0)].

(** [{'session_state': 'Idle', 'peers': {...}}], a set as an attribute. *)
Definition ex_set_attr : st :=
  one_neighbor [("session_state", PStr "Idle"); ("peers", POther)].

(** [{'session_state': b'Established'}] *)
Definition ex_bytes_state : st :=
  one_neighbor [("session_state", PBytes "Established")].



(** A testbed whose second device fails. *)
Definition ex_testbed (bad : tb_device) : list tb_device :=
  [mkDevice "R1" None (Some (PStr "bgp-R1")); bad;
   mkDevice "R3" None (Some (PStr "bgp-R3"))].

(** ** Well-formed heaps and other helpers *)

(** A value whose reference, if any, points into a heap of [n] objects. *)
Definition wf_val (n : nat) (v : pyval) : bool :=
  match v with PRef l => Nat.ltb l n | _ => true end.

(** Every reference stored in a dict of [h] points to an object of [h], as
    on any Python heap. *)
Definition wf_heap (h : list dict) : bool :=
  forallb (fun d => forallb (fun kv => wf_val (length h) (snd kv)) d) h.

(** [m] raises [AttributeError] from [s]. *)
Definition raises_attr {A} (m : M A) (s : st) : Prop :=
  exists s', m s = (inr (SErrored "AttributeError"), s').

(** The [info] of the last device named [k] that has one. *)
Definition last_step (k : string) (acc : option pyval) (d : tb_device) : option pyval :=
  if String.eqb (dev_name d) k
  then match dev_learn d with Some i => Some i | None => acc end
  else acc.

Definition last_info (ds : list tb_device) (k : string) : option pyval :=
  fold_left (last_step k) ds None.

(** The banner [connect] logs for a device. *)
Definition connect_banner (d : tb_device) : logmsg :=
  LBanner ("Connecting to device '" ++ dev_name d ++ "'")%string.

(** A device whose [session_state] is a dict, not a string. *)
Definition ex_bad_state : st :=
  state_with (TDict [("R1", TDict [("instance", TDict [("default", TDict [("vrf",
    TDict [("default", TDict [("neighbor",
      TDict [("10.0.0.1", TDict [("session_state", TDict [])])])])])])])])]).

(** ** Heap reasoning *)

Definition with_heap (s : st) (h : list dict) : st :=
  mkSt h (log s) (events s) (p_devices s) (all_bgp_sessions s).

(** Everything but the heap. *)
Definition meta (s : st) :=
  (log s, events s, p_devices s, all_bgp_sessions s).

(** [h] keeps every object of [h0] as it is. *)
Definition frame (h0 h : list dict) : Prop :=
  length h0 <= length h /\
  forall l, l < length h0 -> nth_error h l = nth_error h0 l.

(** [failed_dict] lives at [fd] and holds the device dicts at [ls]: fresh
    objects, distinct from each other and from [fd], each holding the
    neighbor entries that [F] lists for its device. *)
Definition fd_dict (F : fi_content) (ls : list loc) : dict :=
  map (fun p => (fst (fst p), PRef (snd p))) (combine F ls).

Definition holds (h : list dict) (kv : string * dict) (l : loc) : Prop :=
  nth_error h l = Some (snd kv).

Definition repr (h0 h : list dict) (fd : loc) (F : fi_content) : Prop :=
  exists ls, nth_error h fd = Some (fd_dict F ls) /\
    Forall2 (holds h) F ls /\ NoDup (fd :: ls) /\
    Forall (fun l => length h0 <= l) (fd :: ls).

Definition INV (h0 : list dict) (fd : loc) (F : fi_content) (s : st) : Prop :=
  frame h0 (heap s) /\ repr h0 (heap s) fd F.

(** Everything but the heap and the log. *)
Definition rest (s : st) := (events s, p_devices s, all_bgp_sessions s).

Definition verdict_signal (F : fi_content) : signal :=
  match F with
  | [] => SPassed "All BGP neighbors are established."
  | _ :: _ => SFailed "Some BGP neighbors are not established." []
  end.

Definition dump_log (F : fi_content) : list logmsg :=
  match F with [] => [] | _ :: _ => [LDump F] end.

(** The verdict, or the exception of [json.dumps] on an input heap [h]. *)
Definition bgp_signal (h : list dict) (F : fi_content) : signal :=
  match fi_json_error h F with Some e => SErrored e | None => verdict_signal F end.

Definition bgp_dump (h : list dict) (F : fi_content) : list logmsg :=
  match fi_json_error h F with Some _ => [] | None => dump_log F end.

(** Every neighbor value of [F] points into a heap of [n] objects. *)
Definition fi_wf (n : nat) (F : fi_content) : Prop :=
  Forall (fun kv => Forall (fun nv => wf_val n (snd nv) = true) (snd kv)) F.

Definition lf_step (device nbr : string) (acc : option pyval) (o : occ) : option pyval :=
  if fails o && String.eqb (o_dev o) device && String.eqb (o_nbr o) nbr
  then Some (o_props o) else acc.

Fixpoint headers_of (l : list logmsg) : list string :=
  match l with
  | [] => []
  | LInfo x :: l' => x :: headers_of l'
  | _ :: l' => headers_of l'
  end.

(** A snapshot in which [instance], the default instance or [vrf] is
    absent (the levels above it being dicts). *)
Inductive vrfs_missing (h : list dict) (bgp_info : pyval) : Prop :=
| no_instance d0 :
    rd h bgp_info = Some d0 -> aget d0 "instance" = None -> vrfs_missing h bgp_info
| no_default d0 i di :
    rd h bgp_info = Some d0 -> aget d0 "instance" = Some i -> rd h i = Some di ->
    aget di "default" = None -> vrfs_missing h bgp_info
| no_vrf d0 i di df dd :
    rd h bgp_info = Some d0 -> aget d0 "instance" = Some i -> rd h i = Some di ->
    aget di "default" = Some df -> rd h df = Some dd -> aget dd "vrf" = None ->
    vrfs_missing h bgp_info.

Definition learned (D : dict) (d : tb_device) : dict :=
  match dev_learn d with Some i => aset D (dev_name d) i | None => D end.

(** [check_bgp_loops] after [failed_dict = {}]. *)
Definition loops_after_alloc (failed_dict : pyval) : M (pyval * list row) :=
  let* sessions := get_sessions in
  let* items := py_items sessions in
  let* results_table := foldM (check_device failed_dict) items [] in
  ret (failed_dict, results_table).

(** A reference to an object made after [h0], other than [failed_dict]. *)
Definition good (h0 : list dict) (fd : loc) (v : pyval) : Prop := exists l, v = PRef l /\ length h0 <= l /\ l <> fd.

(** The objects of [h0] unchanged, [self.all_bgp_sessions] unchanged,
    [failed_dict] at [fd] with only fresh objects as values. *)
Definition JINV (h0 : list dict) (sess0 : option pyval) (fd : loc) (s : st) : Prop :=
  frame h0 (heap s) /\ all_bgp_sessions s = sess0 /\ length h0 <= fd /\
  exists D, nth_error (heap s) fd = Some D /\ Forall (fun kv => good h0 fd (snd kv)) D.

Definition triple (h0 : list dict) (sess0 : option pyval) (fd : loc) {A} (m : M A) (Q : A -> Prop) : Prop :=
  forall s, JINV h0 sess0 fd s -> JINV h0 sess0 fd (snd (m s)) /\ forall a, fst (m s) = inl a -> Q a.

Lemma bind_ok {A B} (m : M A) (f : A -> M B) s a s' :
  m s = (inl a, s') -> bind m f s = f a s'.
Proof. intros H. unfold bind. rewrite H. reflexivity. Qed.

Lemma bind_err {A B} (m : M A) (f : A -> M B) s e s' :
  m s = (inr e, s') -> bind m f s = (inr e, s').
Proof. intros H. unfold bind. rewrite H. reflexivity. Qed.

Lemma deref_ok v s d : rd (heap s) v = Some d -> deref v s = (inl d, s).
Proof. intros H. unfold deref. rewrite H. reflexivity. Qed.

Lemma nth_error_upd_same h l d : l < length h -> nth_error (upd h l d) l = Some d.
Proof.
  revert l; induction h as [|x h IH]; intros [|l] Hl; simpl in *; try lia.
  - reflexivity.
  - apply IH; lia.
Qed.

Lemma nth_error_upd_other h l l' d : l <> l' ->
  nth_error (upd h l d) l' = nth_error h l'.
Proof.
  revert l l'; induction h as [|x h IH]; intros [|l] [|l'] Hne; simpl;
    try reflexivity; try congruence.
  apply IH; congruence.
Qed.

Lemma length_upd h l d : length (upd h l d) = length h.
Proof.
  revert l; induction h as [|x h IH]; intros [|l]; simpl; auto.
Qed.

Lemma nth_error_some_lt {A} (h : list A) l x : nth_error h l = Some x -> l < length h.
Proof. intros H. apply nth_error_Some. congruence. Qed.

Lemma nth_error_app_old {A} (h : list A) x l y :
  nth_error h l = Some y -> nth_error (h ++ x) l = Some y.
Proof.
  intros H. rewrite nth_error_app1; [exact H | eapply nth_error_some_lt; eauto].
Qed.

Lemma frame_refl h : frame h h.
Proof. split; auto. Qed.

Lemma frame_nil h : frame [] h.
Proof. split; simpl; [lia|intros l Hl; lia]. Qed.

Lemma frame_app h0 h x : frame h0 h -> frame h0 (h ++ x).
Proof.
  intros [Hl Hf]. split.
  - rewrite length_app. lia.
  - intros l Hlt. rewrite nth_error_app1 by lia. auto.
Qed.

Lemma frame_upd h0 h l d : frame h0 h -> length h0 <= l -> frame h0 (upd h l d).
Proof.
  intros [Hl Hf] Hge. split.
  - rewrite length_upd. exact Hl.
  - intros l' Hlt. rewrite nth_error_upd_other by lia. auto.
Qed.

Lemma frame_trans h0 h1 h2 : frame h0 h1 -> frame h1 h2 -> frame h0 h2.
Proof.
  intros [A1 B1] [A2 B2]. split; [lia|].
  intros l Hl. rewrite B2 by lia. auto.
Qed.

Lemma rd_frame h0 h v d : frame h0 h -> rd h0 v = Some d -> rd h v = Some d.
Proof.
  intros [_ Hf] H. destruct v as [|l| | |]; simpl in *; try discriminate.
  rewrite Hf; [exact H | eapply nth_error_some_lt; eauto].
Qed.

Lemma Forall2_holds_app h F ls x :
  Forall2 (holds h) F ls -> Forall2 (holds (h ++ x)) F ls.
Proof.
  intros H. induction H; constructor; auto.
  unfold holds in *. apply nth_error_app_old. auto.
Qed.

Lemma Forall2_holds_upd h F ls l d :
  Forall2 (holds h) F ls -> ~ In l ls -> Forall2 (holds (upd h l d)) F ls.
Proof.
  intros H. induction H as [|kv l' F ls Hh H IH]; intros Hn; constructor.
  - unfold holds in *. rewrite nth_error_upd_other; auto.
    intros ->. apply Hn. left. reflexivity.
  - apply IH. intros Hi. apply Hn. right. exact Hi.
Qed.

Lemma aget_none_aset {A} (d : list (string * A)) k v :
  aget d k = None -> aset d k v = d ++ [(k, v)].
Proof.
  induction d as [|[k' v'] d IH]; simpl; auto.
  destruct (String.eqb k k'); [discriminate|]. intros H. rewrite IH; auto.
Qed.

Lemma fd_dict_none h F ls k :
  Forall2 (holds h) F ls -> aget F k = None -> aget (fd_dict F ls) k = None.
Proof.
  intros H. induction H as [|[k' v'] l F ls Hh H IH]; simpl; auto.
  unfold fd_dict in *; simpl. destruct (String.eqb k k'); [discriminate|]. auto.
Qed.

Lemma combine_snoc {A B} (l1 : list A) (l2 : list B) a b :
  length l1 = length l2 -> combine (l1 ++ [a]) (l2 ++ [b]) = combine l1 l2 ++ [(a, b)].
Proof.
  revert l2; induction l1 as [|x l1 IH]; intros [|y l2] Hl; simpl in *;
    try discriminate; auto.
  rewrite IH; auto.
Qed.

Lemma fd_dict_snoc F ls k x L :
  length F = length ls ->
  fd_dict (F ++ [(k, x)]) (ls ++ [L]) = fd_dict F ls ++ [(k, PRef L)].
Proof.
  intros Hlen. unfold fd_dict. rewrite combine_snoc by exact Hlen.
  rewrite map_app. reflexivity.
Qed.

(** A device already in [failed_dict]: its dict is found, and updating it
    updates [F] at that device. *)
Lemma fd_dict_present h F ls k inner :
  Forall2 (holds h) F ls -> NoDup ls -> aget F k = Some inner ->
  exists l, aget (fd_dict F ls) k = Some (PRef l) /\ In l ls /\
    nth_error h l = Some inner /\
    fd_dict (aset F k inner) ls = fd_dict F ls /\
    forall x, Forall2 (holds (upd h l x)) (aset F k x) ls /\
              fd_dict (aset F k x) ls = fd_dict F ls.
Proof.
  intros H. induction H as [|[k' v'] l0 F ls Hh H IH]; simpl; [discriminate|].
  intros Hnd Hget. inversion Hnd as [|? ? Hnin Hnd']; subst.
  unfold fd_dict in *; simpl.
  destruct (String.eqb k k') eqn:Ek; simpl.
  - injection Hget as <-. exists l0.
    split; [reflexivity|]. split; [left; reflexivity|].
    split; [exact Hh|]. split; [reflexivity|].
    intros x. split; [|reflexivity]. constructor.
    + unfold holds. simpl. apply nth_error_upd_same.
      eapply nth_error_some_lt; eauto.
    + apply Forall2_holds_upd; auto.
  - destruct (IH Hnd' Hget) as (l & E1 & Hin & E2 & E3 & E4).
    exists l. split; [exact E1|]. split; [right; exact Hin|].
    split; [exact E2|]. split; [rewrite E3; reflexivity|].
    intros x. destruct (E4 x) as [F2 E5]. rewrite E5. split; auto.
    constructor; auto. unfold holds in *.
    rewrite nth_error_upd_other; auto. intros ->. contradiction.
Qed.

Lemma Forall2_holds_lt h F ls l :
  Forall2 (holds h) F ls -> In l ls -> l < length h.
Proof.
  intros H. induction H as [|kv l' F ls Hh H IH]; simpl; [intros []|].
  intros [<-|Hin]; auto. eapply nth_error_some_lt; eauto.
Qed.

(** [failed_dict.setdefault(device, {})[nbr] = props] on the heap does to
    the contents what [fi_add] does, and writes fresh objects only. *)
Lemma record_failure_spec h0 fd F s dev nbr props :
  INV h0 fd F s ->
  exists s', bind (setdefault (PRef fd) dev new_dict)
                  (fun inner => setitem inner nbr props) s = (inl tt, s') /\
    INV h0 fd (aset F dev (aset (fi_get F dev) nbr props)) s' /\
    meta s' = meta s.
Proof.
  intros [Hfr (ls & Hfd & HF2 & Hnd & Hge)].
  assert (Hlt : fd < length (heap s)) by (eapply nth_error_some_lt; eauto).
  assert (Hlen : length F = length ls) by (eapply Forall2_length; eauto).
  inversion Hnd as [|? ? Hnin Hnd']; subst.
  inversion Hge as [|? ? Hge0 Hgels]; subst.
  unfold setdefault, bind, deref, new_dict, ret. simpl. rewrite Hfd.
  unfold fi_get.
  destruct (aget F dev) as [inner|] eqn:Eg.
  - destruct (fd_dict_present _ _ _ _ _ HF2 Hnd' Eg)
      as (l & E1 & Hin & E2 & E3 & E4).
    rewrite E1. unfold setitem, deref, write, bind. simpl.
    rewrite (nth_error_app_old _ _ _ _ E2).
    destruct (E4 (aset inner nbr props)) as [HF2' Efd].
    eexists. split; [reflexivity|]. split; [split|].
    + simpl. apply frame_upd; [apply frame_app; exact Hfr|].
      rewrite Forall_forall in Hgels. apply Hgels. exact Hin.
    + simpl. exists ls. split; [|split; [|split]].
      * rewrite nth_error_upd_other by (intros ->; contradiction).
        rewrite Efd. apply nth_error_app_old. exact Hfd.
      * pose proof (Forall2_holds_app _ _ _ [[]] HF2) as HF2a.
        destruct (fd_dict_present _ _ _ _ _ HF2a Hnd' Eg)
          as (l' & E1' & _ & _ & _ & E4').
        rewrite E1 in E1'. injection E1' as <-.
        apply (E4' (aset inner nbr props)).
      * exact Hnd.
      * exact Hge.
    + reflexivity.
  - assert (Hall : forall l, In l ls -> l < length (heap s))
      by (intros l Hl; eapply Forall2_holds_lt; eauto).
    rewrite (fd_dict_none _ _ _ _ HF2 Eg).
    unfold setitem, deref, write, bind. simpl.
    rewrite (nth_error_app_old _ _ _ _ Hfd).
    simpl.
    rewrite nth_error_upd_other by lia.
    rewrite nth_error_app2 by lia. rewrite Nat.sub_diag. simpl.
    eexists. split; [reflexivity|]. split; [split|].
    + simpl. apply frame_upd; [apply frame_upd; [apply frame_app; exact Hfr | exact Hge0]|].
      destruct Hfr as [Hfl _]. lia.
    + simpl. exists (ls ++ [length (heap s)]).
      rewrite (aget_none_aset F dev) by exact Eg.
      split; [|split; [|split]].
      * rewrite nth_error_upd_other by lia.
        rewrite nth_error_upd_same by (rewrite length_app; simpl; lia).
        rewrite (aget_none_aset _ dev) by (eapply fd_dict_none; eauto).
        rewrite fd_dict_snoc by exact Hlen. reflexivity.
      * apply Forall2_app.
        -- apply Forall2_holds_upd.
           ++ apply Forall2_holds_upd; [apply Forall2_holds_app; exact HF2|exact Hnin].
           ++ intros Hin. specialize (Hall _ Hin). lia.
        -- constructor; [|constructor]. unfold holds. simpl.
           apply nth_error_upd_same. rewrite length_upd, length_app. simpl. lia.
      * constructor.
        -- intros Hin. apply in_app_or in Hin as [Hin|[Hin|[]]]; [contradiction|lia].
        -- apply NoDup_app; [exact Hnd'|constructor; [intros []|constructor]|].
           intros l Hin [<-|[]]. specialize (Hall _ Hin). lia.
      * constructor; [exact Hge0|]. apply Forall_app. split; [exact Hgels|].
        constructor; [|constructor]. destruct Hfr as [Hfl _]. exact Hfl.
    + reflexivity.
Qed.

Lemma py_get_ok v k dflt s d x s1 :
  rd (heap s) v = Some d -> dflt s = (inl x, s1) ->
  py_get v k dflt s = (inl (match aget d k with Some y => y | None => x end), s1).
Proof.
  intros Hd Hx. unfold py_get. rewrite (bind_ok _ _ _ _ _ (deref_ok _ _ _ Hd)).
  rewrite (bind_ok _ _ _ _ _ Hx). reflexivity.
Qed.

Lemma new_dict_eq s :
  new_dict s = (inl (PRef (length (heap s))), with_heap s (heap s ++ [[]])).
Proof. reflexivity. Qed.

Lemma INV_alloc h0 fd F s : INV h0 fd F s -> INV h0 fd F (with_heap s (heap s ++ [[]])).
Proof.
  intros [Hfr (ls & H1 & H2 & H3 & H4)]. split; [apply frame_app; exact Hfr|].
  exists ls. simpl. split; [apply nth_error_app_old; exact H1|].
  split; [apply Forall2_holds_app; exact H2|]. split; [exact H3|]. 
  destruct Hfr as [Hl _]. exact H4.
Qed.

Lemma INV_frame h0 fd F s : INV h0 fd F s -> frame h0 (heap s).
Proof. intros [H _]. exact H. Qed.

Lemma state_of_cases h props st0 :
  state_of h props = Some st0 ->
  exists pd, rd h props = Some pd /\
    (exists x, st0 = PStr x \/ st0 = PBytes x) /\
    (aget pd "session_state" = Some st0 \/
     (aget pd "session_state" = None /\ st0 = PStr "Unknown")).
Proof.
  unfold state_of, obind. destruct (rd h props) as [pd|]; [|discriminate].
  intros H. exists pd. split; [reflexivity|].
  destruct (aget pd "session_state") as [[x|l| |b|]|]; try discriminate;
    injection H as <-.
  - split; [exists x; left; reflexivity|left; reflexivity].
  - split; [exists b; right; reflexivity|left; reflexivity].
  - split; [exists "Unknown"; left; reflexivity|right; split; reflexivity].
Qed.

(** One neighbor: the row of [row_of], and [fi_step] on the contents. *)
Lemma check_neighbor_spec h0 fd F s dev vrf rows nbr props st0 :
  INV h0 fd F s -> state_of h0 props = Some st0 ->
  exists s', check_neighbor (PRef fd) dev vrf rows (nbr, props) s =
      (inl (rows ++ [row_of (mkOcc dev vrf nbr props st0)]), s') /\
    INV h0 fd (fi_step F (mkOcc dev vrf nbr props st0)) s' /\ meta s' = meta s.
Proof.
  intros HI Hst. destruct (state_of_cases _ _ _ Hst) as (pd & Hpd & Hx & Hss).
  pose proof (rd_frame _ _ _ _ (INV_frame _ _ _ _ HI) Hpd) as Hpd'.
  unfold check_neighbor. cbv beta iota zeta.
  rewrite (bind_ok _ _ _ _ _
    (py_get_ok props "session_state" (ret (PStr "Unknown")) s pd _ s Hpd' eq_refl)).
  assert (Hsv : (match aget pd "session_state" with Some y => y | None => PStr "Unknown" end)
                = st0) by (destruct Hss as [-> | [-> ->]]; reflexivity).
  rewrite Hsv.
  assert (Hl : py_lower st0 = ret (lower_val st0))
    by (destruct Hx as (x & [-> | ->]); reflexivity).
  rewrite Hl.
  rewrite (bind_ok _ _ _ _ _ (eq_refl : ret (lower_val st0) s = (inl (lower_val st0), s))).
  unfold fi_step, fails, row_of; simpl.
  destruct (String.eqb (result_of (lower_val st0)) "Failed").
  - destruct (record_failure_spec _ _ _ _ dev nbr props HI) as (s' & E & HI' & Hm).
    rewrite (bind_ok _ _ _ _ _ E). exists s'. split; [reflexivity|]. split; auto.
  - exists s. split; [reflexivity|]. split; auto.
Qed.

Lemma omap_cons_inv {A B} (f : A -> option B) x l ys :
  omap f (x :: l) = Some ys ->
  exists y ys', f x = Some y /\ omap f l = Some ys' /\ ys = y :: ys'.
Proof.
  simpl. unfold obind. destruct (f x) as [y|]; [|discriminate].
  destruct (omap f l) as [ys'|]; [|discriminate]. intros H. injection H as <-.
  exists y, ys'. auto.
Qed.

Ltac inv_omap H :=
  let y := fresh "y" in let ys := fresh "ys" in
  let E1 := fresh "E" in let E2 := fresh "E" in
  destruct (omap_cons_inv _ _ _ _ H) as (y & ys & E1 & E2 & ->).

Lemma neighbors_spec h0 fd dev vrf items : forall os,
  omap (fun np => obind (state_of h0 (snd np)) (fun s =>
          Some (mkOcc dev vrf (fst np) (snd np) s))) items = Some os ->
  forall F s rows, INV h0 fd F s ->
  exists s', foldM (check_neighbor (PRef fd) dev vrf) items rows s =
      (inl (rows ++ map row_of os), s') /\
    INV h0 fd (fold_left fi_step os F) s' /\ meta s' = meta s.
Proof.
  induction items as [|[nbr props] items IH]; intros os Hos F s rows HI.
  - injection Hos as <-. exists s. rewrite app_nil_r. auto.
  - inv_omap Hos. simpl in E. unfold obind in E.
    destruct (state_of h0 props) as [st0|] eqn:Est; [|discriminate].
    injection E as <-.
    destruct (check_neighbor_spec _ _ _ _ dev vrf rows nbr props _ HI Est)
      as (s1 & E1 & HI1 & Hm1).
    destruct (IH _ E0 _ _ (rows ++ [row_of (mkOcc dev vrf nbr props st0)]) HI1)
      as (s2 & E2 & HI2 & Hm2).
    exists s2. simpl. rewrite (bind_ok _ _ _ _ _ E1), E2.
    rewrite <- app_assoc. split; [reflexivity|]. split; [exact HI2|].
    congruence.
Qed.

(** [v.get(k, {})] on a dict [v], where the pure reading gives [x]. *)
Lemma get_sub h0 v k s d x :
  frame h0 (heap s) -> rd (heap s) v = Some d -> sub h0 d k = Some x ->
  exists v', py_get v k new_dict s = (inl v', with_heap s (heap s ++ [[]])) /\
    rd (heap s ++ [[]]) v' = Some x.
Proof.
  intros Hfr Hd Hx. eexists.
  split; [apply (py_get_ok _ _ _ _ _ _ _ Hd (new_dict_eq s))|].
  unfold sub in Hx. destruct (aget d k) as [y|].
  - eapply rd_frame; [apply frame_app; exact Hfr | exact Hx].
  - injection Hx as <-. simpl. rewrite nth_error_app2 by lia.
    rewrite Nat.sub_diag. reflexivity.
Qed.

Lemma meta_with_heap s h : meta (with_heap s h) = meta s.
Proof. reflexivity. Qed.

Lemma check_vrf_spec h0 fd F s dev vp os rows :
  INV h0 fd F s -> vrf_occs h0 dev vp = Some os ->
  exists s', check_vrf (PRef fd) dev rows vp s = (inl (rows ++ map row_of os), s') /\
    INV h0 fd (fold_left fi_step os F) s' /\ meta s' = meta s.
Proof.
  destruct vp as [vrf_name vrf_data]. intros HI Hv.
  unfold vrf_occs, neighbors_of, obind in Hv. simpl in Hv.
  destruct (rd h0 vrf_data) as [d|] eqn:Ed; [|discriminate].
  destruct (sub h0 d "neighbor") as [nbrs|] eqn:En; [|discriminate].
  destruct (get_sub h0 vrf_data "neighbor" s d nbrs (INV_frame _ _ _ _ HI)
              (rd_frame _ _ _ _ (INV_frame _ _ _ _ HI) Ed) En) as (v' & E1 & E2).
  unfold check_vrf. cbv beta iota.
  rewrite (bind_ok _ _ _ _ _ E1).
  unfold py_items. rewrite (bind_ok _ _ _ _ _ (deref_ok v' (with_heap s (heap s ++ [[]])) _ E2)).
  destruct (neighbors_spec h0 fd dev vrf_name nbrs os Hv F _ rows (INV_alloc _ _ _ _ HI))
    as (s2 & E3 & HI2 & Hm2).
  exists s2. split; [exact E3|]. split; [exact HI2|]. rewrite Hm2. reflexivity.
Qed.

Lemma vrfs_spec h0 fd dev vrfs : forall oss,
  omap (vrf_occs h0 dev) vrfs = Some oss ->
  forall F s rows, INV h0 fd F s ->
  exists s', foldM (check_vrf (PRef fd) dev) vrfs rows s =
      (inl (rows ++ map row_of (concat oss)), s') /\
    INV h0 fd (fold_left fi_step (concat oss) F) s' /\ meta s' = meta s.
Proof.
  induction vrfs as [|vp vrfs IH]; intros oss Hoss F s rows HI.
  - injection Hoss as <-. exists s. simpl. rewrite app_nil_r. auto.
  - inv_omap Hoss.
    destruct (check_vrf_spec _ _ _ _ _ _ _ rows HI E) as (s1 & E1 & HI1 & Hm1).
    destruct (IH _ E0 _ _ (rows ++ map row_of y) HI1) as (s2 & E2 & HI2 & Hm2).
    exists s2. simpl. rewrite (bind_ok _ _ _ _ _ E1), E2.
    rewrite map_app, app_assoc, fold_left_app.
    split; [reflexivity|]. split; [exact HI2|]. congruence.
Qed.

Lemma meta_rest s s' : meta s' = meta s -> log s' = log s /\ rest s' = rest s.
Proof. unfold meta, rest. intros H. injection H as E1 E2 E3 E4. rewrite E1, E2, E3, E4. auto. Qed.

Lemma emit_eq m s :
  emit m s = (inl tt, mkSt (heap s) (log s ++ [m]) (events s) (p_devices s)
                           (all_bgp_sessions s)).
Proof. reflexivity. Qed.

Lemma check_device_spec h0 fd F s dp os rows :
  INV h0 fd F s -> device_occs h0 dp = Some os ->
  exists s', check_device (PRef fd) rows dp s = (inl (rows ++ map row_of os), s') /\
    INV h0 fd (fold_left fi_step os F) s' /\
    log s' = log s ++ [LInfo (header (fst dp)); LTable (rows ++ map row_of os)] /\
    rest s' = rest s.
Proof.
  destruct dp as [device bgp_info]. intros HI Hd.
  pose proof (INV_frame _ _ _ _ HI) as Hfr.
  unfold device_occs, vrfs_of, obind in Hd. simpl in Hd.
  destruct (rd h0 bgp_info) as [d0|] eqn:E0; [|discriminate].
  destruct (sub h0 d0 "instance") as [di|] eqn:Ei; [|discriminate].
  destruct (sub h0 di "default") as [dd|] eqn:Edf; [|discriminate].
  destruct (sub h0 dd "vrf") as [vrfs|] eqn:Ev; [|discriminate].
  destruct (omap (vrf_occs h0 device) vrfs) as [oss|] eqn:Eo; [|discriminate].
  injection Hd as <-.
  unfold check_device. cbv beta iota.
  destruct (get_sub h0 bgp_info "instance" s d0 di Hfr (rd_frame _ _ _ _ Hfr E0) Ei)
    as (v1 & E1 & R1).
  rewrite (bind_ok _ _ _ _ _ E1).
  set (s1 := with_heap s (heap s ++ [[]])).
  assert (Hfr1 : frame h0 (heap s1)) by (apply frame_app; exact Hfr).
  destruct (get_sub h0 v1 "default" s1 di dd Hfr1 R1 Edf) as (v2 & E2 & R2).
  rewrite (bind_ok _ _ _ _ _ E2).
  set (s2 := with_heap s1 (heap s1 ++ [[]])).
  assert (Hfr2 : frame h0 (heap s2)) by (apply frame_app; exact Hfr1).
  destruct (get_sub h0 v2 "vrf" s2 dd vrfs Hfr2 R2 Ev) as (v3 & E3 & R3).
  rewrite (bind_ok _ _ _ _ _ E3).
  set (s3 := with_heap s2 (heap s2 ++ [[]])).
  unfold py_items. rewrite (bind_ok _ _ _ _ _ (deref_ok v3 s3 _ R3)).
  assert (HI3 : INV h0 fd F s3)
    by (apply INV_alloc, INV_alloc, INV_alloc; exact HI).
  destruct (vrfs_spec _ _ _ _ _ Eo F s3 rows HI3) as (s4 & E4 & HI4 & Hm4).
  rewrite (bind_ok _ _ _ _ _ E4).
  rewrite (bind_ok _ _ _ _ _ (emit_eq _ _)).
  rewrite (bind_ok _ _ _ _ _ (emit_eq _ _)).
  apply meta_rest in Hm4 as [Hl4 Hr4].
  eexists. split; [reflexivity|]. split; [|split].
  - destruct HI4 as [A B]. split; exact A || exact B.
  - simpl. rewrite Hl4, <- app_assoc. reflexivity.
  - unfold rest in *. simpl. exact Hr4.
Qed.

Lemma devices_spec h0 fd items : forall groups,
  omap (fun dp => obind (device_occs h0 dp) (fun os => Some (fst dp, os))) items
    = Some groups ->
  forall F s rows, INV h0 fd F s ->
  exists s', foldM (check_device (PRef fd)) items rows s =
      (inl (rows ++ map row_of (all_occs groups)), s') /\
    INV h0 fd (fold_left fi_step (all_occs groups) F) s' /\
    log s' = log s ++ device_logs rows groups /\ rest s' = rest s.
Proof.
  induction items as [|dp items IH]; intros groups Hg F s rows HI.
  - injection Hg as <-. exists s. simpl. rewrite !app_nil_r. auto.
  - inv_omap Hg. unfold obind in E.
    destruct (device_occs h0 dp) as [os|] eqn:Ed; [|discriminate]. injection E as <-.
    destruct (check_device_spec _ _ _ _ _ _ rows HI Ed) as (s1 & E1 & HI1 & Hl1 & Hr1).
    destruct (IH _ E0 _ _ (rows ++ map row_of os) HI1) as (s2 & E2 & HI2 & Hl2 & Hr2).
    exists s2. simpl. rewrite (bind_ok _ _ _ _ _ E1), E2.
    unfold all_occs in *. simpl. rewrite map_app, app_assoc, fold_left_app.
    split; [reflexivity|]. split; [exact HI2|]. split; [|congruence].
    rewrite Hl2, Hl1, <- app_assoc. reflexivity.
Qed.

(** The loops of [check_bgp], on a snapshot mapping whose neighbors
    [occurrences] reads as [groups]. *)
Lemma check_bgp_loops_spec s sessions groups :
  all_bgp_sessions s = Some sessions ->
  occurrences (heap s) sessions = Some groups ->
  exists s', check_bgp_loops s =
      (inl (PRef (length (heap s)), map row_of (all_occs groups)), s') /\
    INV (heap s) (length (heap s)) (fi_of groups) s' /\
    log s' = log s ++ device_logs [] groups /\ rest s' = rest s.
Proof.
  intros Hs Ho. unfold occurrences, obind in Ho.
  destruct (rd (heap s) sessions) as [items|] eqn:Ei; [|discriminate].
  unfold check_bgp_loops.
  rewrite (bind_ok _ _ _ _ _ (new_dict_eq s)).
  set (s1 := with_heap s (heap s ++ [[]])).
  assert (HI1 : INV (heap s) (length (heap s)) [] s1).
  { split; [apply frame_app, frame_refl|]. exists []. simpl.
    split; [rewrite nth_error_app2, Nat.sub_diag by lia; reflexivity|].
    split; [constructor|]. split; [constructor; [intros []|constructor]|].
    constructor; [lia|constructor]. }
  assert (Eg : get_sessions s1 = (inl sessions, s1))
    by (unfold get_sessions; simpl; rewrite Hs; reflexivity).
  rewrite (bind_ok _ _ _ _ _ Eg).
  unfold py_items. rewrite (bind_ok _ _ _ _ _
    (deref_ok _ _ _ (rd_frame _ _ _ _ (INV_frame _ _ _ _ HI1) Ei))).
  destruct (devices_spec _ _ _ _ Ho [] s1 [] HI1) as (s2 & E2 & HI2 & Hl2 & Hr2).
  rewrite (bind_ok _ _ _ _ _ E2).
  exists s2. split; [reflexivity|]. split; [exact HI2|]. split; [exact Hl2|].
  exact Hr2.
Qed.

(** ** json.dumps on the heap *)

Lemma wf_rd h v d : wf_heap h = true -> rd h v = Some d ->
  Forall (fun kv => wf_val (length h) (snd kv) = true) d.
Proof.
  intros Hw Hd. destruct v as [s0|l| | |]; try discriminate. simpl in Hd.
  apply nth_error_In in Hd. unfold wf_heap in Hw. rewrite forallb_forall in Hw.
  specialize (Hw _ Hd). rewrite forallb_forall in Hw. apply Forall_forall. exact Hw.
Qed.

Lemma first_error_map_ext {A} (g1 g2 : A -> option string) d :
  (forall x, In x d -> g1 x <> Some "RecursionError" -> g2 x = g1 x) ->
  first_error (map g1 d) <> Some "RecursionError" ->
  first_error (map g2 d) = first_error (map g1 d).
Proof.
  induction d as [|x d IH]; simpl; intros Hg Hn; [reflexivity|].
  destruct (g1 x) as [e|] eqn:E.
  - rewrite (Hg x (or_introl eq_refl)) by (rewrite E; exact Hn). rewrite E. reflexivity.
  - rewrite (Hg x (or_introl eq_refl)) by (rewrite E; discriminate). rewrite E.
    apply IH; [intros y Hy; exact (Hg y (or_intror Hy))|exact Hn].
Qed.

Lemma first_error_none_re {A} (g : A -> option string) d :
  (forall x, In x d -> g x <> Some "RecursionError") ->
  first_error (map g d) <> Some "RecursionError".
Proof.
  induction d as [|x d IH]; simpl; intros Hg; [discriminate|].
  destruct (g x) eqn:E.
  - rewrite <- E. apply Hg. left. reflexivity.
  - apply IH. intros y Hy. apply Hg. right. exact Hy.
Qed.

Lemma first_error_in {A} (g : A -> option string) d e :
  first_error (map g d) = Some e -> exists x, In x d /\ g x = Some e.
Proof.
  induction d as [|x d IH]; simpl; [discriminate|].
  destruct (g x) eqn:E.
  - intros H. injection H as <-. exists x. auto.
  - intros H. destruct (IH H) as (y & Hy & Ey). exists y. auto.
Qed.

Lemma nodup_bound (st : list nat) n :
  NoDup st -> Forall (fun l => l < n) st -> length st <= n.
Proof.
  intros Hnd Hlt. rewrite <- (length_seq n 0).
  apply NoDup_incl_length; [exact Hnd|].
  intros x Hx. apply in_seq. rewrite Forall_forall in Hlt. specialize (Hlt x Hx). lia.
Qed.

Lemma existsb_eqb_false l (st : list loc) : existsb (Nat.eqb l) st = false -> ~ In l st.
Proof.
  intros H Hin.
  assert (existsb (Nat.eqb l) st = true)
    by (apply existsb_exists; exists l; split; [exact Hin|apply Nat.eqb_refl]).
  congruence.
Qed.

(** With more fuel than objects, the encoder never runs out: the dicts
    being encoded are distinct objects of the heap. *)
Lemma json_error_no_recursion h : forall f st v,
  NoDup st -> Forall (fun l => l < length h) st -> length h < f + length st ->
  json_error f h st v <> Some "RecursionError".
Proof.
  induction f as [|f IH]; intros st v Hnd Hlt Hlen; destruct v as [s0|l| |b|]; simpl;
    try discriminate.
  - destruct (existsb (Nat.eqb l) st) eqn:Ex; [discriminate|].
    pose proof (nodup_bound _ _ Hnd Hlt). exfalso. lia.
  - destruct (existsb (Nat.eqb l) st) eqn:Ex; [discriminate|].
    destruct (nth_error h l) as [d|] eqn:Ed; [|discriminate].
    apply first_error_none_re. intros kv _. apply IH.
    + constructor; [apply existsb_eqb_false; exact Ex|exact Hnd].
    + constructor; [eapply nth_error_some_lt; eauto|exact Hlt].
    + simpl. lia.
Qed.

Lemma json_fuel_mono h : forall f st v,
  json_error f h st v <> Some "RecursionError" ->
  forall f', f <= f' -> json_error f' h st v = json_error f h st v.
Proof.
  induction f as [|f IH]; intros st v Hn f' Hle.
  - destruct f' as [|f']; [reflexivity|].
    destruct v as [s0|l| |b|]; simpl in *; try reflexivity.
    destruct (existsb (Nat.eqb l) st); [reflexivity|congruence].
  - destruct f' as [|f']; [lia|].
    destruct v as [s0|l| |b|]; simpl in *; try reflexivity.
    destruct (existsb (Nat.eqb l) st); [reflexivity|].
    destruct (nth_error h l) as [d|]; [|reflexivity].
    apply first_error_map_ext; [|exact Hn].
    intros kv _ Hk. apply IH; [exact Hk|lia].
Qed.

(** The objects of a well-formed heap [hb] encode alike in a heap [h]
    that keeps them, also below dicts made after [hb]. *)
Lemma json_transfer hb h : frame hb h -> wf_heap hb = true ->
  forall f st ex v, wf_val (length hb) v = true ->
  Forall (fun l => length hb <= l) ex ->
  json_error f h (st ++ ex) v = json_error f hb st v.
Proof.
  intros Hfr Hw. induction f as [|f IH]; intros st ex v Hv Hex;
    destruct v as [s0|l| |b|]; try reflexivity.
  all: simpl in Hv; apply Nat.ltb_lt in Hv; simpl; rewrite existsb_app.
  all: assert (Hn : existsb (Nat.eqb l) ex = false)
         by (apply not_true_iff_false; intros Hin;
             apply existsb_exists in Hin as (x & Hx & Ex); apply Nat.eqb_eq in Ex;
             rewrite Forall_forall in Hex; specialize (Hex x Hx); lia).
  all: rewrite Hn, orb_false_r; destruct (existsb (Nat.eqb l) st); try reflexivity.
  destruct Hfr as [_ Hfr]. rewrite (Hfr l Hv).
  destruct (nth_error hb l) as [d|] eqn:Ed; [|reflexivity].
  f_equal. apply map_ext_in. intros kv Hkv. apply (IH (l :: st) ex); [|exact Hex].
  pose proof (wf_rd hb (PRef l) d Hw Ed) as Hd. rewrite Forall_forall in Hd.
  exact (Hd kv Hkv).
Qed.

Lemma json_error_kinds f h st v e : json_error f h st v = Some e ->
  e = "TypeError" \/ e = "ValueError" \/ e = "RecursionError".
Proof.
  revert st v. induction f as [|f IH]; intros st v; destruct v as [s0|l| |b|]; simpl;
    try discriminate; try (intros H; injection H as <-; auto; fail).
  - destruct (existsb (Nat.eqb l) st); intros H; injection H as <-; auto.
  - destruct (existsb (Nat.eqb l) st); [intros H; injection H as <-; auto|].
    destruct (nth_error h l) as [d|]; [|discriminate].
    intros H. destruct (first_error_in _ _ _ H) as (kv & _ & Hk). exact (IH _ _ Hk).
Qed.

Lemma props_error_kinds h v e : props_error h v = Some e ->
  e = "TypeError" \/ e = "ValueError".
Proof.
  intros H. destruct (json_error_kinds _ _ _ _ _ H) as [|[|He]]; auto.
  exfalso. subst e.
  exact (json_error_no_recursion h (S (length h)) [] v (NoDup_nil _) ltac:(constructor)
           ltac:(simpl; lia) H).
Qed.

Lemma fi_json_error_kinds h F e : fi_json_error h F = Some e ->
  F <> [] /\ (e = "TypeError" \/ e = "ValueError").
Proof.
  unfold fi_json_error. intros H. destruct (first_error_in _ _ _ H) as (kv & Hkv & Hk).
  destruct (first_error_in _ _ _ Hk) as (nv & _ & Hn).
  split; [intros ->; destruct Hkv|exact (props_error_kinds _ _ _ Hn)].
Qed.

(** A device dict of [failed_dict]: its attribute values encode as they do
    in the input heap. *)
Lemma json_inner hb h (fd l : loc) inner f :
  frame hb h -> wf_heap hb = true -> nth_error h l = Some inner -> l <> fd ->
  length hb <= l -> length hb <= fd ->
  Forall (fun nv => wf_val (length hb) (snd nv) = true) inner ->
  S (S (length hb)) <= f ->
  json_error f h [fd] (PRef l) = first_error (map (fun nv => props_error hb (snd nv)) inner).
Proof.
  intros Hfr Hw Hl Hne Hge Hgf Hin Hf.
  destruct f as [|f]; [lia|]. simpl.
  destruct (Nat.eqb_spec l fd) as [|_]; [contradiction|]. simpl. rewrite Hl.
  f_equal. apply map_ext_in. intros nv Hnv. rewrite Forall_forall in Hin.
  pose proof (Hin nv Hnv) as Hv.
  pose proof (json_transfer hb h Hfr Hw f [] [l; fd] (snd nv) Hv
                ltac:(constructor; [lia|constructor; [lia|constructor]])) as Ht.
  transitivity (json_error f hb [] (snd nv)); [exact Ht|].
  unfold props_error. apply json_fuel_mono; [|lia].
  apply json_error_no_recursion; [constructor|constructor|simpl; lia].
Qed.

(** [json.dumps(failed_dict)] raises what [fi_json_error] reads off the
    contents, on the input heap. *)
Lemma json_failed_dict hb h0 fd F s :
  INV h0 fd F s -> frame hb h0 -> wf_heap hb = true -> fi_wf (length hb) F ->
  json_error (S (length (heap s))) (heap s) [] (PRef fd) = fi_json_error hb F.
Proof.
  intros [Hfr0 (ls & Hfd & HF2 & Hnd & Hge)] Hb Hw HF.
  pose proof (frame_trans _ _ _ Hb Hfr0) as Hfr.
  assert (Hlt : fd < length (heap s)) by (eapply nth_error_some_lt; eauto).
  simpl. rewrite Hfd. unfold fi_json_error.
  inversion Hnd as [|? ? Hnin Hnd']; subst. inversion Hge as [|? ? Hge0 Hgels]; subst.
  destruct Hb as [Hbl _].
  clear Hfd Hnd Hge.
  revert HF Hnin Hnd' Hgels.
  induction HF2 as [|[k inner] l F ls Hh HF2 IH]; intros HF Hnin Hnd Hgels;
    [reflexivity|].
  inversion HF as [|? ? Hi HF']; subst. inversion Hgels as [|? ? Hl Hgels']; subst.
  inversion Hnd as [|? ? _ Hnd']; subst.
  unfold fd_dict; simpl. fold (fd_dict F ls).
  unfold holds in Hh. simpl in Hh, Hi.
  assert (Hll : l < length (heap s)) by (eapply nth_error_some_lt; eauto).
  assert (Hne : l <> fd) by (intros ->; apply Hnin; left; reflexivity).
  rewrite (json_inner hb (heap s) fd l inner (length (heap s)) Hfr Hw Hh Hne
             ltac:(lia) ltac:(lia) Hi ltac:(lia)).
  destruct (first_error (map (fun nv => props_error hb (snd nv)) inner));
    [reflexivity|].
  apply IH; auto. intros Hin. apply Hnin. right. exact Hin.
Qed.

Lemma dump_spec h F ls : Forall2 (holds h) F ls ->
  forall acc s, heap s = h ->
  foldM (fun acc (kv : string * pyval) =>
           let* inner := deref (snd kv) in ret (acc ++ [(fst kv, inner)]))
        (fd_dict F ls) acc s = (inl (acc ++ F), s).
Proof.
  intros H. induction H as [|kv l F ls Hh H IH]; intros acc s Hs.
  - simpl. rewrite app_nil_r. reflexivity.
  - unfold fd_dict. simpl. fold (fd_dict F ls).
    unfold holds in Hh.
    rewrite (bind_ok _ _ _ _ _ (bind_ok _ _ _ _ _ (deref_ok (PRef l) s _ ltac:(simpl; rewrite Hs; exact Hh)))).
    rewrite IH by exact Hs. rewrite <- app_assoc. destruct kv. reflexivity.
Qed.

Lemma check_verdict_spec hb h0 fd F s :
  INV h0 fd F s -> frame hb h0 -> wf_heap hb = true -> fi_wf (length hb) F ->
  check_verdict (PRef fd) s =
    (inr (bgp_signal hb F),
     mkSt (heap s) (log s ++ bgp_dump hb F) (events s) (p_devices s)
          (all_bgp_sessions s)).
Proof.
  intros HI Hb Hw HF.
  pose proof (json_failed_dict _ _ _ _ _ HI Hb Hw HF) as Hj.
  destruct HI as [_ (ls & Hfd & HF2 & _ & _)].
  unfold check_verdict, bgp_signal, bgp_dump.
  rewrite (bind_ok _ _ _ _ _ (deref_ok (PRef fd) s _ Hfd)).
  destruct F as [|kv F'] eqn:EF; destruct ls as [|l ls'];
    try (inversion HF2; fail).
  - unfold fd_dict. simpl. rewrite app_nil_r. destruct s; reflexivity.
  - change (fd_dict (kv :: F') (l :: ls')) with ((fst kv, PRef l) :: fd_dict F' ls').
    cbv beta iota.
    destruct (fi_json_error hb (kv :: F')) as [e|] eqn:Ej.
    + assert (Ed : dump_failed (PRef fd) s = (inr (SErrored e), s))
        by (unfold dump_failed; apply bind_err; unfold json_dumps; rewrite Hj; reflexivity).
      rewrite (bind_err _ _ _ _ _ Ed). rewrite app_nil_r. destruct s; reflexivity.
    + assert (Ed : dump_failed (PRef fd) s = (inl (kv :: F'), s)).
      { assert (Ej' : json_dumps (PRef fd) s = (inl tt, s))
          by (unfold json_dumps; rewrite Hj; reflexivity).
        unfold dump_failed. rewrite (bind_ok _ _ _ _ _ Ej').
        rewrite (bind_ok _ _ _ _ _ (deref_ok (PRef fd) s _ Hfd)).
        rewrite (dump_spec _ _ _ HF2 [] s eq_refl). reflexivity. }
      rewrite (bind_ok _ _ _ _ _ Ed).
      rewrite (bind_ok _ _ _ _ _ (emit_eq _ _)). reflexivity.
Qed.

(** The whole test: the loops, then the verdict. *)
Lemma check_bgp_spec hb s sessions groups :
  all_bgp_sessions s = Some sessions ->
  occurrences (heap s) sessions = Some groups ->
  frame hb (heap s) -> wf_heap hb = true -> fi_wf (length hb) (fi_of groups) ->
  exists s', check_bgp s = (inr (bgp_signal hb (fi_of groups)), s') /\
    frame (heap s) (heap s') /\
    log s' = log s ++ device_logs [] groups ++ bgp_dump hb (fi_of groups) /\
    rest s' = rest s.
Proof.
  intros Hs Ho Hb Hw HF.
  destruct (check_bgp_loops_spec _ _ _ Hs Ho) as (s1 & E1 & HI1 & Hl1 & Hr1).
  unfold check_bgp. rewrite (bind_ok _ _ _ _ _ E1). simpl.
  rewrite (check_verdict_spec _ _ _ _ _ HI1 Hb Hw HF).
  eexists. split; [reflexivity|]. split; [exact (INV_frame _ _ _ _ HI1)|].
  simpl. rewrite Hl1, <- app_assoc. split; [reflexivity|].
  unfold rest in *. exact Hr1.
Qed.

(** ** The FailureIndex contents *)

Lemma aget_aset_same {A} (d : list (string * A)) k v : aget (aset d k v) k = Some v.
Proof.
  induction d as [|[k' v'] d IH]; simpl.
  - rewrite String.eqb_refl. reflexivity.
  - destruct (String.eqb k k') eqn:E; simpl; rewrite ?E; auto.
Qed.

Lemma aget_aset_other {A} (d : list (string * A)) k k2 v :
  k <> k2 -> aget (aset d k v) k2 = aget d k2.
Proof.
  intros Hne. induction d as [|[k' v'] d IH]; simpl.
  - destruct (String.eqb_spec k2 k); [congruence|reflexivity].
  - destruct (String.eqb_spec k k') as [<-|Hk]; simpl.
    + destruct (String.eqb_spec k2 k); [congruence|reflexivity].
    + destruct (String.eqb k2 k'); auto.
Qed.

Lemma aget_in {A} (d : list (string * A)) k : aget d k <> None <-> In k (map fst d).
Proof.
  induction d as [|[k' v'] d IH]; simpl; [tauto|].
  destruct (String.eqb_spec k k') as [->|Hk]; [split; auto; discriminate|].
  rewrite IH. split; [auto|]. intros [->|H]; [congruence|exact H].
Qed.

Lemma aset_keys {A} (d : list (string * A)) k v :
  forall k2, In k2 (map fst (aset d k v)) <-> k2 = k \/ In k2 (map fst d).
Proof.
  intros k2. rewrite <- !aget_in.
  destruct (String.eqb_spec k k2) as [<-|Hne].
  - rewrite aget_aset_same. split; [auto|discriminate].
  - rewrite aget_aset_other by exact Hne. split; [auto|]. intros [->|H]; [congruence|exact H].
Qed.

Lemma aset_nodup {A} (d : list (string * A)) k v :
  NoDup (map fst d) -> NoDup (map fst (aset d k v)).
Proof.
  induction d as [|[k' v'] d IH]; simpl; intros Hnd.
  - constructor; [intros []|constructor].
  - inversion Hnd as [|? ? Hn Hnd']; subst.
    destruct (String.eqb_spec k k') as [<-|Hk]; simpl; constructor; auto.
    rewrite aset_keys. intros [->|H]; [congruence|contradiction].
Qed.

Lemma fi_get_add F o d :
  fi_get (fi_add F o) d =
  if String.eqb (o_dev o) d then aset (fi_get F d) (o_nbr o) (o_props o) else fi_get F d.
Proof.
  unfold fi_add, fi_get at 1. destruct (String.eqb_spec (o_dev o) d) as [<-|Hne].
  - rewrite aget_aset_same. reflexivity.
  - rewrite aget_aset_other by exact Hne. reflexivity.
Qed.

Lemma fi_fold_device os : forall F d,
  aget (fold_left fi_step os F) d <> None <->
  aget F d <> None \/ exists o, In o os /\ o_dev o = d /\ fails o = true.
Proof.
  induction os as [|o os IH]; intros F d; simpl.
  - split; [auto|]. intros [H|(o & [] & _)]. exact H.
  - rewrite IH. unfold fi_step.
    destruct (fails o) eqn:Ef.
    + unfold fi_add. rewrite !aget_in, aset_keys, <- !aget_in.
      split.
      * intros [[->|H]|(o' & Hin & E1 & E2)]; [right; exists o; auto|left; exact H|].
        right. exists o'. auto.
      * intros [H|(o' & [<-|Hin] & E1 & E2)]; [left; right; exact H| |].
        -- left. left. auto.
        -- right. exists o'. auto.
    + split.
      * intros [H|(o' & Hin & E1 & E2)]; [left; exact H|right; exists o'; auto].
      * intros [H|(o' & [<-|Hin] & E1 & E2)]; [left; exact H| congruence |].
        right. exists o'. auto.
Qed.

Lemma fi_fold_nbr os : forall F d n,
  aget (fi_get (fold_left fi_step os F) d) n =
  fold_left (lf_step d n) os (aget (fi_get F d) n).
Proof.
  induction os as [|o os IH]; intros F d n; simpl; [reflexivity|].
  rewrite IH. f_equal. unfold fi_step, lf_step.
  destruct (fails o); simpl; [|reflexivity].
  rewrite fi_get_add.
  destruct (String.eqb_spec (o_dev o) d); simpl; [|reflexivity].
  destruct (String.eqb_spec (o_nbr o) n) as [<-|Hne].
  - apply aget_aset_same.
  - apply aget_aset_other. exact Hne.
Qed.

Lemma lf_fold_some os d n : forall acc,
  fold_left (lf_step d n) os acc <> None <->
  acc <> None \/ exists o, In o os /\ o_dev o = d /\ o_nbr o = n /\ fails o = true.
Proof.
  induction os as [|o os IH]; intros acc; simpl.
  - split; [auto|]. intros [H|(o & [] & _)]. exact H.
  - rewrite IH. unfold lf_step.
    destruct (fails o) eqn:Ef; destruct (String.eqb_spec (o_dev o) d);
      destruct (String.eqb_spec (o_nbr o) n); simpl;
      (split;
       [intros [H|(o' & Hin & E1 & E2 & E3)];
          [ | right; exists o'; auto]
       | intros [H|(o' & [<-|Hin] & E1 & E2 & E3)];
          [ | | right; exists o'; auto]]);
      try (left; exact H); try (left; discriminate); try congruence.
    all: right; exists o; auto.
Qed.

Lemma fi_fold_nodup os : forall F d,
  NoDup (map fst (fi_get F d)) ->
  NoDup (map fst (fi_get (fold_left fi_step os F) d)).
Proof.
  induction os as [|o os IH]; intros F d Hnd; simpl; [exact Hnd|].
  apply IH. unfold fi_step. destruct (fails o); [|exact Hnd].
  rewrite fi_get_add. destruct (String.eqb (o_dev o) d); [|exact Hnd].
  apply aset_nodup. exact Hnd.
Qed.

Lemma fi_view_repr h0 fd F s :
  INV h0 fd F s -> fi_view (heap s) (PRef fd) = Some F.
Proof.
  intros [_ (ls & Hfd & HF2 & _ & _)]. unfold fi_view, obind. simpl. rewrite Hfd.
  clear Hfd. induction HF2 as [|[k v] l F ls Hh HF2 IH]; [reflexivity|].
  unfold fd_dict in *. simpl. unfold holds in Hh. simpl in Hh. rewrite Hh.
  unfold obind in *. destruct (omap _ _); [|discriminate]. injection IH as ->.
  reflexivity.
Qed.

(** ** Reading a snapshot in a heap that kept its objects *)

Lemma omap_ext_some {A B} (f g : A -> option B) l ys :
  (forall x y, In x l -> f x = Some y -> g x = Some y) ->
  omap f l = Some ys -> omap g l = Some ys.
Proof.
  revert ys; induction l as [|x l IH]; intros ys Hfg H; [exact H|].
  inv_omap H. simpl. rewrite (Hfg x y (or_introl eq_refl) E).
  rewrite (IH ys0 (fun x' y' Hin => Hfg x' y' (or_intror Hin)) E0). reflexivity.
Qed.

Lemma obind_some {A B} (o : option A) (f : A -> option B) y :
  obind o f = Some y -> exists a, o = Some a /\ f a = Some y.
Proof. destruct o as [a|]; simpl; [eauto|discriminate]. Qed.

Lemma sub_frame h0 h d k x : frame h0 h -> sub h0 d k = Some x -> sub h d k = Some x.
Proof.
  unfold sub. intros Hfr. destruct (aget d k); [apply rd_frame; exact Hfr|auto].
Qed.

Lemma occurrences_frame h0 h sessions groups :
  frame h0 h -> occurrences h0 sessions = Some groups ->
  occurrences h sessions = Some groups.
Proof.
  intros Hfr Ho. unfold occurrences in *.
  destruct (obind_some _ _ _ Ho) as (items & Ei & Eo).
  rewrite (rd_frame _ _ _ _ Hfr Ei). simpl.
  revert Eo. apply omap_ext_some. intros [device info] g _ Hd.
  destruct (obind_some _ _ _ Hd) as (os & Eos & Eg). rewrite <- Eg. simpl.
  unfold device_occs in *.
  destruct (obind_some _ _ _ Eos) as (vrfs & Ev & Eoss).
  assert (Ev' : vrfs_of h info = Some vrfs).
  { unfold vrfs_of in *.
    destruct (obind_some _ _ _ Ev) as (d0 & E0 & Ev1).
    destruct (obind_some _ _ _ Ev1) as (di & E1 & Ev2).
    destruct (obind_some _ _ _ Ev2) as (dd & E2 & E3).
    simpl in E0. rewrite (rd_frame _ _ _ _ Hfr E0). simpl.
    rewrite (sub_frame _ _ _ _ _ Hfr E1). simpl.
    rewrite (sub_frame _ _ _ _ _ Hfr E2). simpl.
    exact (sub_frame _ _ _ _ _ Hfr E3). }
  simpl in *. rewrite Ev'. simpl.
  destruct (obind_some _ _ _ Eoss) as (oss & Eo1 & Eo2).
  assert (Eo1' : omap (vrf_occs h device) vrfs = Some oss).
  { revert Eo1. apply omap_ext_some. intros [vrf_name vrf_data] os' _ Hv.
    unfold vrf_occs, neighbors_of in *. simpl in *.
    destruct (obind_some _ _ _ Hv) as (nbrs & En & Eos').
    destruct (obind_some _ _ _ En) as (dv & Edv & Esub).
    rewrite (rd_frame _ _ _ _ Hfr Edv). simpl.
    rewrite (sub_frame _ _ _ _ _ Hfr Esub). simpl.
    revert Eos'. apply omap_ext_some. intros [nbr props] o _ Hn. simpl in *.
    destruct (obind_some _ _ _ Hn) as (st0 & Est & Eo').
    unfold state_of in *.
    destruct (obind_some _ _ _ Est) as (pd & Epd & Es).
    rewrite (rd_frame _ _ _ _ Hfr Epd). simpl. rewrite Es. exact Eo'. }
  rewrite Eo1'. simpl. injection Eo2 as ->. reflexivity.
Qed.

(** ** The attribute dicts kept in failed_dict *)

Lemma rd_wf_val h v d : rd h v = Some d -> wf_val (length h) v = true.
Proof.
  destruct v as [|l| | |]; simpl; try discriminate.
  intros H. apply Nat.ltb_lt. eapply nth_error_some_lt; eauto.
Qed.

Lemma omap_Forall {A B} (f : A -> option B) (P : B -> Prop) l :
  (forall x y, In x l -> f x = Some y -> P y) ->
  forall ys, omap f l = Some ys -> Forall P ys.
Proof.
  induction l as [|x l IH]; intros Hf ys Hys.
  - injection Hys as <-. constructor.
  - inv_omap Hys. constructor; [eapply Hf; [left; reflexivity|exact E]|].
    apply IH; [intros x' y' Hx; apply Hf; right; exact Hx|exact E0].
Qed.

Lemma Forall_concat_all {A} (P : A -> Prop) (L : list (list A)) :
  Forall (Forall P) L -> Forall P (concat L).
Proof. induction 1; simpl; [constructor|apply Forall_app; split; auto]. Qed.

(** Every neighbor [occurrences] reads has a dict of the heap as its
    attributes. *)
Lemma occurrences_props_wf h sessions groups :
  occurrences h sessions = Some groups ->
  Forall (fun o => wf_val (length h) (o_props o) = true) (all_occs groups).
Proof.
  unfold occurrences. intros Ho. destruct (obind_some _ _ _ Ho) as (items & _ & Eg).
  unfold all_occs. apply Forall_concat_all. apply Forall_map.
  revert Eg. apply omap_Forall. intros dp g _ Hg.
  destruct (obind_some _ _ _ Hg) as (os & Eos & Eg'). injection Eg' as <-. simpl.
  unfold device_occs in Eos. destruct (obind_some _ _ _ Eos) as (vrfs & _ & E1).
  destruct (obind_some _ _ _ E1) as (oss & E2 & E3). injection E3 as <-.
  apply Forall_concat_all. revert E2. apply omap_Forall. intros vp os' _ Hv.
  unfold vrf_occs in Hv. destruct (obind_some _ _ _ Hv) as (nbrs & _ & E4).
  revert E4. apply omap_Forall. intros np o _ Hn.
  destruct (obind_some _ _ _ Hn) as (st0 & Est & Eo). injection Eo as <-. simpl.
  destruct (state_of_cases _ _ _ Est) as (pd & Hpd & _).
  exact (rd_wf_val _ _ _ Hpd).
Qed.

Lemma aset_Forall {A} (Q : A -> Prop) (d : list (string * A)) k v :
  Forall (fun kv => Q (snd kv)) d -> Q v -> Forall (fun kv => Q (snd kv)) (aset d k v).
Proof.
  intros Hd Hv. induction Hd as [|[k' v'] d Hv' Hd IH]; simpl.
  - constructor; [exact Hv|constructor].
  - destruct (String.eqb k k'); constructor; auto.
Qed.

Lemma fi_get_Forall (Q : pyval -> Prop) F d :
  Forall (fun kv => Forall (fun nv => Q (snd nv)) (snd kv)) F ->
  Forall (fun nv => Q (snd nv)) (fi_get F d).
Proof.
  unfold fi_get. intros HF. induction HF as [|[k inner] F Hi HF IH]; simpl; [constructor|].
  destruct (String.eqb d k); [exact Hi|exact IH].
Qed.

Lemma fi_fold_wf n os : forall F,
  Forall (fun o => wf_val n (o_props o) = true) os -> fi_wf n F ->
  fi_wf n (fold_left fi_step os F).
Proof.
  induction os as [|o os IH]; intros F Hos HF; simpl; [exact HF|].
  inversion Hos as [|? ? Ho Hos']; subst. apply IH; [exact Hos'|].
  unfold fi_step, fi_add. destruct (fails o); [|exact HF].
  unfold fi_wf.
  apply (aset_Forall (fun inner => Forall (fun nv => wf_val n (snd nv) = true) inner));
    [exact HF|].
  apply (aset_Forall (fun v => wf_val n v = true)); [apply (fi_get_Forall (fun v => wf_val n v = true)); exact HF|exact Ho].
Qed.

Lemma occurrences_fi_wf h sessions groups :
  occurrences h sessions = Some groups -> fi_wf (length h) (fi_of groups).
Proof.
  intros Ho. apply fi_fold_wf; [exact (occurrences_props_wf _ _ _ Ho)|constructor].
Qed.

(** The whole test on a well-formed input heap. *)
Lemma check_bgp_spec_wf s sessions groups :
  wf_heap (heap s) = true ->
  all_bgp_sessions s = Some sessions ->
  occurrences (heap s) sessions = Some groups ->
  exists s', check_bgp s = (inr (bgp_signal (heap s) (fi_of groups)), s') /\
    frame (heap s) (heap s') /\
    log s' = log s ++ device_logs [] groups ++ bgp_dump (heap s) (fi_of groups) /\
    rest s' = rest s.
Proof.
  intros Hw Hs Ho.
  exact (check_bgp_spec (heap s) s sessions groups Hs Ho (frame_refl _) Hw
           (occurrences_fi_wf _ _ _ Ho)).
Qed.

(** ** Claims about the evaluation stage *)

(** C3: the verdict of a neighbor is [Passed] exactly when its
    [session_state], lowercased, is ["established"]; otherwise it is
    [Failed]. A neighbor without [session_state] gets the state
    ["Unknown"] and the verdict [Failed]. *)
Theorem check_neighbor_verdict h0 fd F s device vrf_name rows nbr props pd :
  INV h0 fd F s -> rd h0 props = Some pd ->
  (forall x, aget pd "session_state" = Some (PStr x) ->
     exists s' r, check_neighbor (PRef fd) device vrf_name rows (nbr, props) s
                    = (inl (rows ++ [r]), s') /\
       (r_result r = "Passed" <-> lower x = "established") /\
       (r_result r <> "Passed" <-> r_result r = "Failed")) /\
  (aget pd "session_state" = None ->
     exists s' r, check_neighbor (PRef fd) device vrf_name rows (nbr, props) s
                    = (inl (rows ++ [r]), s') /\
       r_state r = PStr "Unknown" /\ r_result r = "Failed").
Proof.
  intros HI Hpd. split.
  - intros x Hx.
    assert (Hst : state_of h0 props = Some (PStr x))
      by (unfold state_of; rewrite Hpd; simpl; rewrite Hx; reflexivity).
    destruct (check_neighbor_spec _ _ _ _ device vrf_name rows nbr props _ HI Hst)
      as (s' & E & _ & _).
    exists s', (row_of (mkOcc device vrf_name nbr props (PStr x))). split; [exact E|].
    unfold row_of, result_of; simpl.
    destruct (String.eqb_spec (lower x) "established"); split; split; intros H;
      try reflexivity; try congruence; try discriminate.
  - intros Hx.
    assert (Hst : state_of h0 props = Some (PStr "Unknown"))
      by (unfold state_of; rewrite Hpd; simpl; rewrite Hx; reflexivity).
    destruct (check_neighbor_spec _ _ _ _ device vrf_name rows nbr props _ HI Hst)
      as (s' & E & _ & _).
    exists s', (row_of (mkOcc device vrf_name nbr props (PStr "Unknown"))).
    split; [exact E|]. split; reflexivity.
Qed.

(** C4: after the loops, [failed_dict] has an entry for a device exactly
    when some neighbor of that device fails, and the neighbor addresses
    under the device are exactly those of its failing neighbors. *)
Theorem failure_index_exact s sessions groups :
  all_bgp_sessions s = Some sessions ->
  occurrences (heap s) sessions = Some groups ->
  exists fd rows s', check_bgp_loops s = (inl (fd, rows), s') /\
    fi_view (heap s') fd = Some (fi_of groups) /\
    (forall d, aget (fi_of groups) d <> None <->
       exists o, In o (all_occs groups) /\ o_dev o = d /\ fails o = true) /\
    (forall d inner, aget (fi_of groups) d = Some inner ->
       forall n, aget inner n <> None <->
         exists o, In o (all_occs groups) /\ o_dev o = d /\ o_nbr o = n /\
                   fails o = true).
Proof.
  intros Hs Ho.
  destruct (check_bgp_loops_spec _ _ _ Hs Ho) as (s' & E & HI & _ & _).
  exists (PRef (length (heap s))), (map row_of (all_occs groups)), s'.
  split; [exact E|]. split; [exact (fi_view_repr _ _ _ _ HI)|]. split.
  - intros d. unfold fi_of. rewrite fi_fold_device. simpl.
    split; [intros [H|H]; [congruence|exact H]|auto].
  - intros d inner Hd n.
    assert (Hi : fi_get (fi_of groups) d = inner) by (unfold fi_get; rewrite Hd; reflexivity).
    rewrite <- Hi. unfold fi_of. rewrite fi_fold_nbr. rewrite lf_fold_some. simpl.
    split; [intros [H|H]; [congruence|exact H]|auto].
Qed.

Lemma headers_of_app l1 l2 : headers_of (l1 ++ l2) = headers_of l1 ++ headers_of l2.
Proof.
  induction l1 as [|[] l1 IH]; simpl; rewrite ?IH; reflexivity.
Qed.

Lemma headers_device_logs groups : forall acc,
  headers_of (device_logs acc groups) = map (fun g => header (fst g)) groups.
Proof.
  induction groups as [|[d os] groups IH]; intros acc; simpl; [reflexivity|].
  rewrite IH. reflexivity.
Qed.

Lemma occurrences_keys h sessions items groups :
  rd h sessions = Some items -> occurrences h sessions = Some groups ->
  map fst groups = map fst items.
Proof.
  unfold occurrences. intros Ei. rewrite Ei. simpl. clear Ei. revert groups.
  induction items as [|dp items IH]; intros groups Ho.
  - injection Ho as <-. reflexivity.
  - inv_omap Ho. destruct (obind_some _ _ _ E) as (os & _ & Ey).
    injection Ey as <-. simpl. f_equal. apply IH. exact E0.
Qed.

Lemma dump_log_cases F : (F = [] /\ dump_log F = []) \/ (F <> [] /\ dump_log F = [LDump F]).
Proof. destruct F; [left|right]; split; auto; discriminate. Qed.

(** C6 (as amended): on a heap whose references all point to objects,
    [check_bgp] logs the header and table of every device of
    [all_bgp_sessions], in order, and then:
    - when [json.dumps] encodes every attribute dict kept in [failed_dict]
      ([fi_json_error] is [None]), it fails exactly when [failed_dict] is
      non-empty, after logging a dump of all of it, and passes otherwise;
    - when it does not, [json.dumps] raises its [TypeError] (an attribute
      that is bytes, a set or another object JSON does not encode) or
      [ValueError] (an attribute dict that contains itself), the test ends
      with that exception, and no dump and no verdict follow.
    With no neighbor at all, the index is empty and the test passes. *)
Theorem check_bgp_outcome s sessions items groups :
  wf_heap (heap s) = true ->
  all_bgp_sessions s = Some sessions ->
  rd (heap s) sessions = Some items ->
  occurrences (heap s) sessions = Some groups ->
  exists sig s', check_bgp s = (inr sig, s') /\
    headers_of (device_logs [] groups) = map (fun dp => header (fst dp)) items /\
    (fi_json_error (heap s) (fi_of groups) = None ->
       ((exists m, result_of_signal (inr sig) = RFailed m) <-> fi_of groups <> []) /\
       (result_of_signal (inr sig) = RPassed <-> fi_of groups = []) /\
       log s' = log s ++ device_logs [] groups ++ dump_log (fi_of groups) /\
       (fi_of groups <> [] -> dump_log (fi_of groups) = [LDump (fi_of groups)])) /\
    (forall e, fi_json_error (heap s) (fi_of groups) = Some e ->
       fi_of groups <> [] /\ (e = "TypeError" \/ e = "ValueError") /\
       sig = SErrored e /\ log s' = log s ++ device_logs [] groups) /\
    (all_occs groups = [] ->
       fi_of groups = [] /\ sig = SPassed "All BGP neighbors are established.").
Proof.
  intros Hw Hs Hi Ho.
  destruct (check_bgp_spec_wf _ _ _ Hw Hs Ho) as (s' & E & _ & Hl & _).
  exists (bgp_signal (heap s) (fi_of groups)), s'.
  split; [exact E|]. split; [|split; [|split]].
  - rewrite headers_device_logs.
    rewrite <- (map_map fst header), (occurrences_keys _ _ _ _ Hi Ho).
    rewrite map_map. reflexivity.
  - intros Hj. unfold bgp_signal, bgp_dump in *. rewrite Hj in Hl |- *.
    split; [|split; [|split; [exact Hl|]]].
    + destruct (fi_of groups) as [|kv F]; simpl.
      * split; [intros (m & Hm); discriminate | intros H; contradiction].
      * split; [intros _; discriminate | intros _; eexists; reflexivity].
    + destruct (fi_of groups) as [|kv F]; simpl; split; auto; discriminate.
    + destruct (dump_log_cases (fi_of groups)) as [[H1 H2]|[H1 H2]];
        [intros; contradiction|intros; exact H2].
  - intros e Hj. destruct (fi_json_error_kinds _ _ _ Hj) as [Hne Hk].
    unfold bgp_signal, bgp_dump in *. rewrite Hj in Hl |- *.
    split; [exact Hne|]. split; [exact Hk|]. split; [reflexivity|].
    rewrite app_nil_r in Hl. exact Hl.
  - intros Hnil. unfold fi_of. rewrite Hnil. split; reflexivity.
Qed.

(** C6, as stated, does not hold: the failing neighbor of [ex_cyclic],
    whose attribute dict holds itself, and that of [ex_set_attr], which
    holds a set, both put [failed_dict] in a non-empty state, yet
    [check_bgp] does not fail: [json.dumps] raises [ValueError] and
    [TypeError], and no dump is logged. A bytes [session_state] does the
    same. *)
Theorem check_bgp_outcome_cex :
  wf_heap (heap ex_cyclic) = true /\
  occurrences (heap ex_cyclic) (sessions_of ex_cyclic) = Some (groups_of ex_cyclic) /\
  fi_of (groups_of ex_cyclic) <> [] /\
  fst (check_bgp ex_cyclic) = inr (SErrored "ValueError") /\
  log (snd (check_bgp ex_cyclic)) = device_logs [] (groups_of ex_cyclic) /\
  wf_heap (heap ex_set_attr) = true /\
  occurrences (heap ex_set_attr) (sessions_of ex_set_attr) = Some (groups_of ex_set_attr) /\
  fi_of (groups_of ex_set_attr) <> [] /\
  fst (check_bgp ex_set_attr) = inr (SErrored "TypeError") /\
  fst (check_bgp ex_bytes_state) = inr (SErrored "TypeError").
Proof. vm_compute. repeat split; discriminate. Qed.

(** C8: running the evaluation a second time, on the state the first run
    left, gives the same rows, the same [failed_dict] contents, the same
    verdict and the same log lines. For the whole test the heap is one
    whose references all point to objects, as a Python heap is: a
    reference past the end would name, on the second run, an object the
    first run made, and [json.dumps] would walk into it. *)
Theorem check_bgp_idempotent s sessions groups :
  wf_heap (heap s) = true ->
  all_bgp_sessions s = Some sessions ->
  occurrences (heap s) sessions = Some groups ->
  (exists fd1 rows1 s1 fd2 rows2 s2,
     check_bgp_loops s = (inl (fd1, rows1), s1) /\
     check_bgp_loops s1 = (inl (fd2, rows2), s2) /\
     rows1 = rows2 /\ fi_view (heap s1) fd1 = fi_view (heap s2) fd2 /\
     exists ext, log s1 = log s ++ ext /\ log s2 = log s1 ++ ext) /\
  (exists o1 t1 o2 t2,
     check_bgp s = (o1, t1) /\ check_bgp t1 = (o2, t2) /\ o1 = o2 /\
     exists ext, log t1 = log s ++ ext /\ log t2 = log t1 ++ ext).
Proof.
  intros Hw Hs Ho. split.
  - destruct (check_bgp_loops_spec _ _ _ Hs Ho) as (s1 & E1 & HI1 & Hl1 & Hr1).
    assert (Hs1 : all_bgp_sessions s1 = Some sessions)
      by (unfold rest in Hr1; injection Hr1 as _ _ ->; exact Hs).
    assert (Ho1 : occurrences (heap s1) sessions = Some groups)
      by (apply (occurrences_frame (heap s)); [exact (INV_frame _ _ _ _ HI1)|exact Ho]).
    destruct (check_bgp_loops_spec _ _ _ Hs1 Ho1) as (s2 & E2 & HI2 & Hl2 & _).
    do 6 eexists. split; [exact E1|]. split; [exact E2|]. split; [reflexivity|].
    split; [rewrite (fi_view_repr _ _ _ _ HI1), (fi_view_repr _ _ _ _ HI2); reflexivity|].
    exists (device_logs [] groups). split; assumption.
  - pose proof (occurrences_fi_wf _ _ _ Ho) as HF.
    destruct (check_bgp_spec (heap s) _ _ _ Hs Ho (frame_refl _) Hw HF)
      as (t1 & E1 & Hf1 & Hl1 & Hr1).
    assert (Hs1 : all_bgp_sessions t1 = Some sessions)
      by (unfold rest in Hr1; injection Hr1 as _ _ ->; exact Hs).
    assert (Ho1 : occurrences (heap t1) sessions = Some groups)
      by (apply (occurrences_frame (heap s)); [exact Hf1|exact Ho]).
    destruct (check_bgp_spec (heap s) _ _ _ Hs1 Ho1 Hf1 Hw HF) as (t2 & E2 & _ & Hl2 & _).
    do 4 eexists. split; [exact E1|]. split; [exact E2|]. split; [reflexivity|].
    eexists. split; [exact Hl1|exact Hl2].
Qed.

(** C10: every occurrence of a neighbor gives a row, but [failed_dict]
    keeps one entry per address under a device: the attribute dict of the
    last failing occurrence, shared with the snapshot. *)
Theorem duplicate_address_last_wins s sessions groups :
  all_bgp_sessions s = Some sessions ->
  occurrences (heap s) sessions = Some groups ->
  exists fd s', check_bgp_loops s = (inl (fd, map row_of (all_occs groups)), s') /\
    fi_view (heap s') fd = Some (fi_of groups) /\
    forall d inner, aget (fi_of groups) d = Some inner ->
      NoDup (map fst inner) /\
      forall n, aget inner n = last_failing (all_occs groups) d n.
Proof.
  intros Hs Ho.
  destruct (check_bgp_loops_spec _ _ _ Hs Ho) as (s' & E & HI & _ & _).
  exists (PRef (length (heap s))), s'. split; [exact E|].
  split; [exact (fi_view_repr _ _ _ _ HI)|].
  intros d inner Hd.
  assert (Hi : fi_get (fi_of groups) d = inner) by (unfold fi_get; rewrite Hd; reflexivity).
  rewrite <- Hi. unfold fi_of. split.
  - apply fi_fold_nodup. constructor.
  - intros n. rewrite fi_fold_nbr. reflexivity.
Qed.

Lemma vrfs_missing_chain h info :
  vrfs_missing h info ->
  exists d0 di dd, rd h info = Some d0 /\ sub h d0 "instance" = Some di /\
    sub h di "default" = Some dd /\ sub h dd "vrf" = Some [].
Proof.
  unfold sub. intros [d0 E0 Ei|d0 i di E0 Ei Edi Ed|d0 i di df dd E0 Ei Edi Ed Edd Ev].
  - exists d0, [], []. rewrite Ei. auto.
  - exists d0, di, []. rewrite Ei, Ed. auto.
  - exists d0, di, dd. rewrite Ei, Ed, Ev. auto.
Qed.

(** C5: a missing [instance], default instance or [vrf] level makes the
    device contribute no row and no [failed_dict] entry, without an error;
    so does a missing [neighbor] level for its VRF. *)
Theorem missing_levels_zero_neighbors :
  (forall fd rows device bgp_info s,
     vrfs_missing (heap s) bgp_info ->
     exists s', check_device fd rows (device, bgp_info) s = (inl rows, s') /\
       frame (heap s) (heap s') /\
       log s' = log s ++ [LInfo (header device); LTable rows] /\ rest s' = rest s) /\
  (forall fd device rows vrf_name vrf_data d s,
     rd (heap s) vrf_data = Some d -> aget d "neighbor" = None ->
     exists s', check_vrf fd device rows (vrf_name, vrf_data) s = (inl rows, s') /\
       frame (heap s) (heap s') /\ meta s' = meta s).
Proof.
  split.
  - intros fd rows device bgp_info s Hm.
    destruct (vrfs_missing_chain _ _ Hm) as (d0 & di & dd & E0 & Ei & Ed & Ev).
    pose proof (frame_refl (heap s)) as Hfr.
    unfold check_device. cbv beta iota.
    destruct (get_sub _ _ _ _ _ _ Hfr E0 Ei) as (v1 & E1 & R1).
    rewrite (bind_ok _ _ _ _ _ E1).
    set (s1 := with_heap s (heap s ++ [[]])).
    assert (Hfr1 : frame (heap s) (heap s1)) by (apply frame_app; exact Hfr).
    destruct (get_sub _ _ _ _ _ _ Hfr1 R1 Ed) as (v2 & E2 & R2).
    rewrite (bind_ok _ _ _ _ _ E2).
    set (s2 := with_heap s1 (heap s1 ++ [[]])).
    assert (Hfr2 : frame (heap s) (heap s2)) by (apply frame_app; exact Hfr1).
    destruct (get_sub _ _ _ _ _ _ Hfr2 R2 Ev) as (v3 & E3 & R3).
    rewrite (bind_ok _ _ _ _ _ E3).
    set (s3 := with_heap s2 (heap s2 ++ [[]])).
    unfold py_items. rewrite (bind_ok _ _ _ _ _ (deref_ok v3 s3 _ R3)). simpl.
    rewrite (bind_ok _ _ _ _ _ (eq_refl : ret rows s3 = (inl rows, s3))).
    rewrite (bind_ok _ _ _ _ _ (emit_eq _ _)).
    rewrite (bind_ok _ _ _ _ _ (emit_eq _ _)).
    eexists. split; [reflexivity|]. split; [|split; [|reflexivity]].
    + simpl. apply frame_app. exact Hfr2.
    + simpl. rewrite <- app_assoc. reflexivity.
  - intros fd device rows vrf_name vrf_data d s Hd Hn.
    assert (Hs : sub (heap s) d "neighbor" = Some []) by (unfold sub; rewrite Hn; reflexivity).
    destruct (get_sub _ _ _ _ _ _ (frame_refl (heap s)) Hd Hs) as (v & E1 & R1).
    unfold check_vrf. cbv beta iota.
    rewrite (bind_ok _ _ _ _ _ E1).
    unfold py_items.
    rewrite (bind_ok _ _ _ _ _ (deref_ok v (with_heap s (heap s ++ [[]])) _ R1)).
    eexists. split; [reflexivity|]. split; [|reflexivity].
    apply frame_app, frame_refl.
Qed.

(** ** Claims about the connection and collection stages *)

Lemma connect_one_ok acc d s :
  dev_connect d = None ->
  connect_one acc d s =
    (inl (acc ++ [d]),
     mkSt (heap s) (log s ++ [LBanner ("Connecting to device '" ++ dev_name d ++ "'")%string])
          (events s ++ [EConnect (dev_name d)]) (p_devices s) (all_bgp_sessions s)).
Proof.
  intros Hd. unfold connect_one, device_connect, bind, emit, record_event, ret.
  simpl. rewrite Hd. reflexivity.
Qed.

Lemma connect_prefix ok : forall acc s,
  Forall (fun d => dev_connect d = None) ok ->
  exists s', foldM connect_one ok acc s = (inl (acc ++ ok), s') /\
    events s' = events s ++ map (fun d => EConnect (dev_name d)) ok /\
    p_devices s' = p_devices s /\ heap s' = heap s.
Proof.
  induction ok as [|d ok IH]; intros acc s Hok.
  - exists s. rewrite !app_nil_r. auto.
  - inversion Hok as [|? ? Hd Hok']; subst.
    simpl. rewrite (bind_ok _ _ _ _ _ (connect_one_ok acc d s Hd)).
    edestruct (IH (acc ++ [d])) as (s' & E & He & Hp & Hh); [exact Hok'|].
    exists s'. rewrite E, <- app_assoc. split; [reflexivity|].
    rewrite He. simpl. rewrite <- app_assoc. auto.
Qed.

Lemma foldM_app {A B} (f : B -> A -> M B) l1 l2 : forall b s,
  foldM f (l1 ++ l2) b s = bind (foldM f l1 b) (foldM f l2) s.
Proof.
  induction l1 as [|x l1 IH]; intros b s; simpl; [reflexivity|].
  unfold bind in *. destruct (f b x s) as [[a|sg] s1]; [|reflexivity].
  apply IH.
Qed.

(** C1: in [CommonSetup.connect], [self.failed(...)] in the [except]
    branch ends the subsection at the first device whose connection
    raises: the devices after it are never attempted and
    [parameters['devices']] is never assigned. *)
Theorem connect_stops_at_first_failure s ok bad e rest_devs :
  Forall (fun d => dev_connect d = None) ok -> dev_connect bad = Some e ->
  exists s', connect (ok ++ bad :: rest_devs) s =
      (inr (SFailed ("Failed to establish connection to '" ++ dev_name bad
                     ++ "': " ++ e)%string []), s') /\
    events s' = events s ++ map (fun d => EConnect (dev_name d)) (ok ++ [bad]) /\
    p_devices s' = p_devices s.
Proof.
  intros Hok Hbad.
  destruct (connect_prefix ok [] s Hok) as (s1 & E1 & He1 & Hp1 & _).
  unfold connect. unfold bind at 1. rewrite foldM_app, (bind_ok _ _ _ _ _ E1).
  simpl. unfold connect_one, bind, emit, device_connect, record_event, ret. simpl.
  rewrite Hbad. unfold failed, raise.
  eexists. split; [reflexivity|]. simpl. rewrite He1, map_app, <- app_assoc.
  split; [reflexivity|exact Hp1].
Qed.

Lemma learn_prefix L ok : forall s D,
  nth_error (heap s) L = Some D ->
  Forall (fun d => dev_learn d <> None) ok ->
  exists s', foldM (learn_one (PRef L)) ok tt s = (inl tt, s') /\
    nth_error (heap s') L = Some (fold_left learned ok D) /\
    length (heap s') = length (heap s) /\
    events s' = events s ++ map (fun d => ELearn (dev_name d)) ok /\
    p_devices s' = p_devices s /\ all_bgp_sessions s' = all_bgp_sessions s.
Proof.
  induction ok as [|d ok IH]; intros s D HL Hok.
  - exists s. simpl. rewrite app_nil_r. repeat split; reflexivity || exact HL.
  - inversion Hok as [|? ? Hd Hok']; subst.
    destruct (dev_learn d) as [i|] eqn:Ei; [|congruence].
    set (s1 := mkSt (upd (heap s) L (aset D (dev_name d) i))
                 (log s ++ [LBanner ("Gathering BGP Information from " ++ dev_name d)%string])
                 (events s ++ [ELearn (dev_name d)]) (p_devices s) (all_bgp_sessions s)).
    assert (E1 : learn_one (PRef L) tt d s = (inl tt, s1)).
    { unfold learn_one, device_learn, bind, emit, record_event, ret. simpl.
      rewrite Ei. unfold setitem, bind, deref, write. simpl. rewrite HL. reflexivity. }
    assert (HL1 : nth_error (heap s1) L = Some (aset D (dev_name d) i))
      by (apply nth_error_upd_same; eapply nth_error_some_lt; eauto).
    destruct (IH s1 _ HL1 Hok') as (s' & E & HL' & Hlen & He & Hp & Hs).
    exists s'. simpl. rewrite (bind_ok _ _ _ _ _ E1), E.
    unfold learned at 2. rewrite Ei.
    split; [reflexivity|]. split; [exact HL'|].
    rewrite Hlen. simpl. rewrite length_upd. split; [reflexivity|].
    rewrite He. simpl. rewrite <- app_assoc. auto.
Qed.

Lemma learned_keys ok : forall D k,
  In k (map fst (fold_left learned ok D)) <->
  In k (map fst D) \/ exists d, In d ok /\ dev_learn d <> None /\ dev_name d = k.
Proof.
  induction ok as [|d ok IH]; intros D k; simpl.
  - split; [auto|]. intros [H|(d & [] & _)]. exact H.
  - rewrite IH. unfold learned. destruct (dev_learn d) as [i|] eqn:Ei.
    + rewrite aset_keys. split.
      * intros [[->|H]|(d' & Hin & E1 & E2)].
        -- right. exists d. rewrite Ei. split; [auto|split; [discriminate|reflexivity]].
        -- left. exact H.
        -- right. exists d'. auto.
      * intros [H|(d' & [<-|Hin] & E1 & E2)]; [left; right; exact H| |].
        -- left. left. auto.
        -- right. exists d'. auto.
    + split.
      * intros [H|(d' & Hin & E1 & E2)]; [left; exact H|right; exists d'; auto].
      * intros [H|(d' & [<-|Hin] & E1 & E2)]; [left; exact H|congruence|].
        right. exists d'. auto.
Qed.

(** C7: when the state-learning service gives no [info] for a device,
    [learn_bgp] fails naming that device and goes to [common_cleanup]:
    no device after it is learnt, [all_bgp_sessions] holds only the devices
    before it, and [check_bgp] does not run. *)
Theorem learn_failure_goes_to_cleanup s ok bad rest_devs :
  p_devices s = Some (ok ++ bad :: rest_devs) ->
  Forall (fun d => dev_learn d <> None) ok -> dev_learn bad = None ->
  exists s' sess D,
    run_testcase s =
      ([("learn_bgp", RFailed ("Failed to learn BGP info from device "
                               ++ dev_name bad)%string);
        ("clean_up", RPassed)], s') /\
    events s' = events s ++ map (fun d => ELearn (dev_name d)) (ok ++ [bad]) /\
    all_bgp_sessions s' = Some sess /\ rd (heap s') sess = Some D /\
    (forall k, In k (map fst D) <->
       exists d, In d ok /\ dev_name d = k).
Proof.
  intros Hp Hok Hbad.
  set (L := length (heap s)).
  set (s0 := mkSt (heap s ++ [[]]) (log s) (events s) (Some (ok ++ bad :: rest_devs))
                  (Some (PRef L))).
  assert (E0 : learn_bgp s = foldM (learn_one (PRef L)) (ok ++ bad :: rest_devs) tt s0).
  { unfold learn_bgp, bind, new_dict, set_sessions, get_devices. simpl. rewrite Hp.
    reflexivity. }
  assert (HL0 : nth_error (heap s0) L = Some []).
  { simpl. unfold L. rewrite nth_error_app2, Nat.sub_diag by lia. reflexivity. }
  destruct (learn_prefix L ok s0 [] HL0 Hok) as (s1 & E1 & HL1 & Hlen1 & He1 & Hp1 & Hs1).
  rewrite foldM_app, (bind_ok _ _ _ _ _ E1) in E0.
  set (s2 := mkSt (heap s1)
               (log s1 ++ [LBanner ("Gathering BGP Information from " ++ dev_name bad)%string])
               (events s1 ++ [ELearn (dev_name bad)]) (p_devices s1) (all_bgp_sessions s1)).
  assert (E2 : learn_bgp s = (inr (SFailed ("Failed to learn BGP info from device "
                                  ++ dev_name bad)%string ["common_cleanup"]), s2)).
  { rewrite E0. simpl. unfold learn_one, device_learn, bind, emit, record_event, ret.
    simpl. rewrite Hbad. reflexivity. }
  unfold run_testcase, run_section. rewrite E2. simpl.
  eexists (mkSt (heap s2) (log s2 ++ [LInfo "Aetest Common Cleanup"]) (events s2)
             (p_devices s2) (all_bgp_sessions s2)).
  exists (PRef L), (fold_left learned ok []).
  split; [reflexivity|]. simpl.
  split; [rewrite He1, map_app, <- app_assoc; reflexivity|].
  split; [exact Hs1|]. split; [exact HL1|].
  intros k. rewrite learned_keys. simpl. split.
  - intros [[]|(d & Hin & _ & E)]. exists d. auto.
  - intros (d & Hin & E). right. exists d. split; [exact Hin|]. split; [|exact E].
    rewrite Forall_forall in Hok. apply Hok. exact Hin.
Qed.

(** ** The evaluation writes fresh objects only *)

Section Frame.

Variable h0 : list dict.
Variable sess0 : option pyval.
Variable fd : loc.

Lemma triple_ret {A} (a : A) (Q : A -> Prop) : Q a -> triple h0 sess0 fd (ret a) Q.
Proof. intros HQ s HI. split; [exact HI|]. intros a' H. injection H as <-. exact HQ. Qed.

Lemma triple_raise {A} e (Q : A -> Prop) : triple h0 sess0 fd (raise e) Q.
Proof. intros s HI. split; [exact HI|]. intros a H. discriminate. Qed.

Lemma triple_bind {A B} (m : M A) (f : A -> M B) (P : A -> Prop) (Q : B -> Prop) :
  triple h0 sess0 fd m P -> (forall a, P a -> triple h0 sess0 fd (f a) Q) -> triple h0 sess0 fd (bind m f) Q.
Proof.
  intros Hm Hf s HI. destruct (Hm s HI) as [HI1 HP]. unfold bind.
  destruct (m s) as [[a|e] s1] eqn:E; simpl in *.
  - apply (Hf a (HP a eq_refl) s1 HI1).
  - split; [exact HI1|]. intros b Hb. discriminate.
Qed.

Lemma triple_weaken {A} (m : M A) (P Q : A -> Prop) :
  triple h0 sess0 fd m P -> (forall a, P a -> Q a) -> triple h0 sess0 fd m Q.
Proof. intros H HPQ s HI. destruct (H s HI) as [H1 H2]. split; auto. Qed.

(** Steps that leave the heap and [self.all_bgp_sessions] alone. *)
Lemma triple_pure {A} (m : M A) :
  (forall s, heap (snd (m s)) = heap s /\
             all_bgp_sessions (snd (m s)) = all_bgp_sessions s) ->
  triple h0 sess0 fd m (fun _ => True).
Proof.
  intros H s (Hf & Hs & Hfd & D & HD & HG). destruct (H s) as [E1 E2].
  split; [|auto]. unfold JINV. rewrite E1, E2.
  split; [exact Hf|]. split; [exact Hs|]. split; [exact Hfd|]. exists D. auto.
Qed.

Lemma triple_deref v : triple h0 sess0 fd (deref v) (fun _ => True).
Proof.
  apply triple_pure. intros s. unfold deref. destruct (rd (heap s) v); auto.
Qed.

Lemma triple_deref_fd : triple h0 sess0 fd (deref (PRef fd)) (fun D => Forall (fun kv => (good h0 fd) (snd kv)) D).
Proof.
  intros s HI. pose proof HI as (_ & _ & _ & D & HD & HG).
  unfold deref. simpl. rewrite HD. simpl. split; [exact HI|].
  intros a Ha. injection Ha as <-. exact HG.
Qed.

Lemma triple_emit m : triple h0 sess0 fd (emit m) (fun _ => True).
Proof. apply triple_pure. intros s. auto. Qed.

Lemma triple_new_dict : triple h0 sess0 fd new_dict (good h0 fd).
Proof.
  intros s (Hf & Hs & Hfd & D & HD & HG). simpl. split.
  - split; [apply frame_app; exact Hf|]. split; [exact Hs|]. split; [exact Hfd|].
    exists D. split; [apply nth_error_app_old; exact HD|exact HG].
  - intros a Ha. injection Ha as <-. exists (length (heap s)).
    split; [reflexivity|]. destruct Hf as [Hl _]. split; [lia|].
    apply nth_error_some_lt in HD. lia.
Qed.

Lemma triple_new_dict' : triple h0 sess0 fd new_dict (fun _ => True).
Proof. eapply triple_weaken; [apply triple_new_dict|auto]. Qed.

Lemma triple_py_get v k dflt : triple h0 sess0 fd dflt (fun _ => True) -> triple h0 sess0 fd (py_get v k dflt) (fun _ => True).
Proof.
  intros Hd. unfold py_get. eapply triple_bind; [apply triple_deref|].
  intros d _. eapply triple_bind; [exact Hd|]. intros x _. apply triple_ret. auto.
Qed.

Lemma triple_py_lower v : triple h0 sess0 fd (py_lower v) (fun _ => True).
Proof. unfold py_lower. destruct v; first [apply triple_ret; auto | apply triple_raise]. Qed.

Lemma Forall_good_aset D k x :
  Forall (fun kv => (good h0 fd) (snd kv)) D -> (good h0 fd) x ->
  Forall (fun kv => (good h0 fd) (snd kv)) (aset D k x).
Proof.
  intros HD Hx. induction HD as [|[k' v'] D Hv HD IH]; simpl.
  - constructor; [exact Hx|constructor].
  - destruct (String.eqb k k'); constructor; auto.
Qed.

(** [inner[nbr] = props] on a fresh object other than [failed_dict]. *)
Lemma triple_setitem_good v k x : (good h0 fd) v -> triple h0 sess0 fd (setitem v k x) (fun _ => True).
Proof.
  intros (l & -> & Hl & Hne) s HI. pose proof HI as (Hf & Hs & Hfd & D & HD & HG).
  unfold setitem, bind, deref. simpl.
  destruct (nth_error (heap s) l) as [d|]; simpl; [|split; [exact HI|discriminate]].
  split; [|auto]. unfold JINV; simpl. split; [apply frame_upd; auto|].
  split; [exact Hs|]. split; [exact Hfd|]. exists D.
  rewrite nth_error_upd_other by congruence. auto.
Qed.

(** [failed_dict[device] = x] with a fresh [x]. *)
Lemma triple_setitem_fd k x : (good h0 fd) x -> triple h0 sess0 fd (setitem (PRef fd) k x) (fun _ => True).
Proof.
  intros Hx s HI. pose proof HI as (Hf & Hs & Hfd & D & HD & HG).
  unfold setitem, bind, deref. simpl. rewrite HD. simpl.
  split; [|auto]. unfold JINV; simpl. split; [apply frame_upd; auto|].
  split; [exact Hs|]. split; [exact Hfd|]. exists (aset D k x).
  split; [apply nth_error_upd_same; eapply nth_error_some_lt; eauto|].
  apply Forall_good_aset; auto.
Qed.

Lemma triple_setdefault_fd k : triple h0 sess0 fd (setdefault (PRef fd) k new_dict) (good h0 fd).
Proof.
  unfold setdefault. eapply triple_bind; [apply triple_deref_fd|].
  intros D HG. eapply triple_bind; [apply triple_new_dict|].
  intros x Hx. destruct (aget D k) as [y|] eqn:E.
  - apply triple_ret. clear -HG E. induction HG as [|[k' v'] D Hv HG IH]; simpl in E.
    + discriminate.
    + destruct (String.eqb k k'); [injection E as <-; exact Hv|auto].
  - eapply triple_bind; [apply triple_setitem_fd; exact Hx|]. intros _ _.
    apply triple_ret. exact Hx.
Qed.

Lemma triple_foldM {A B} (f : B -> A -> M B) l :
  (forall b x, triple h0 sess0 fd (f b x) (fun _ => True)) ->
  forall b, triple h0 sess0 fd (foldM f l b) (fun _ => True).
Proof.
  intros Hf. induction l as [|x l IH]; intros b; simpl.
  - apply triple_ret. auto.
  - eapply triple_bind; [apply Hf|]. intros b' _. apply IH.
Qed.

Lemma triple_check_neighbor device vrf_name rows np :
  triple h0 sess0 fd (check_neighbor (PRef fd) device vrf_name rows np) (fun _ => True).
Proof.
  destruct np as [nbr props]. unfold check_neighbor.
  eapply triple_bind; [apply triple_py_get, triple_ret; auto|]. intros sv _.
  eapply triple_bind; [apply triple_py_lower|]. intros state _.
  eapply triple_bind.
  - destruct (String.eqb (result_of state) "Failed").
    + eapply triple_bind; [apply triple_setdefault_fd|].
      intros inner Hg. apply triple_setitem_good. exact Hg.
    + apply triple_ret. exact I.
  - intros _ _. apply triple_ret. auto.
Qed.

Lemma triple_check_vrf device rows vp :
  triple h0 sess0 fd (check_vrf (PRef fd) device rows vp) (fun _ => True).
Proof.
  destruct vp as [vrf_name vrf_data]. unfold check_vrf.
  eapply triple_bind; [apply triple_py_get, triple_new_dict'|]. intros nb _.
  eapply triple_bind; [apply triple_deref|]. intros items _.
  apply triple_foldM. intros b x. apply triple_check_neighbor.
Qed.

Lemma triple_check_device rows dp :
  triple h0 sess0 fd (check_device (PRef fd) rows dp) (fun _ => True).
Proof.
  destruct dp as [device bgp_info]. unfold check_device.
  eapply triple_bind; [apply triple_py_get, triple_new_dict'|]. intros i _.
  eapply triple_bind; [apply triple_py_get, triple_new_dict'|]. intros df _.
  eapply triple_bind; [apply triple_py_get, triple_new_dict'|]. intros v _.
  eapply triple_bind; [apply triple_deref|]. intros items _.
  eapply triple_bind; [apply triple_foldM; intros; apply triple_check_vrf|].
  intros r _. eapply triple_bind; [apply triple_emit|]. intros _ _.
  eapply triple_bind; [apply triple_emit|]. intros _ _. apply triple_ret. auto.
Qed.

Lemma triple_check_verdict : triple h0 sess0 fd (check_verdict (PRef fd)) (fun _ => True).
Proof.
  unfold check_verdict. eapply triple_bind; [apply triple_deref|]. intros d _.
  destruct d as [|kv d].
  - apply triple_raise.
  - eapply triple_bind.
    + unfold dump_failed.
      eapply triple_bind.
      { apply triple_pure. intros s. unfold json_dumps.
        destruct (json_error _ _ _ _); auto. }
      intros _ _. eapply triple_bind; [apply triple_deref|]. intros D _.
      apply triple_foldM. intros acc x. eapply triple_bind; [apply triple_deref|].
      intros inner _. apply triple_ret. exact I.
    + intros dump _. eapply triple_bind; [apply triple_emit|]. intros _ _.
      apply triple_raise.
Qed.

End Frame.

Lemma check_bgp_loops_unfold s :
  check_bgp_loops s =
  loops_after_alloc (PRef (length (heap s))) (with_heap s (heap s ++ [[]])).
Proof. reflexivity. Qed.

Lemma check_bgp_unfold s :
  check_bgp s = match check_bgp_loops s with
                | (inl r, s1) => check_verdict (fst r) s1
                | (inr e, s1) => (inr e, s1)
                end.
Proof. reflexivity. Qed.

(** C9: [check_bgp] leaves every object that existed before it ran as it
    was, the snapshots and the [all_bgp_sessions] dict among them, and
    leaves [self.all_bgp_sessions] in place; this holds for every input,
    also when the evaluation stops on an error. *)
Theorem check_bgp_preserves_input s :
  frame (heap s) (heap (snd (check_bgp s))) /\
  all_bgp_sessions (snd (check_bgp s)) = all_bgp_sessions s.
Proof.
  assert (HI1 : JINV (heap s) (all_bgp_sessions s) (length (heap s))
                     (with_heap s (heap s ++ [[]]))).
  { split; [apply frame_app, frame_refl|]. split; [reflexivity|]. split; [lia|].
    exists []. split; [|constructor]. simpl.
    rewrite nth_error_app2, Nat.sub_diag by lia. reflexivity. }
  assert (Hloops : triple (heap s) (all_bgp_sessions s) (length (heap s))
    (loops_after_alloc (PRef (length (heap s))))
    (fun r => fst r = PRef (length (heap s)))).
  { unfold loops_after_alloc.
    apply (triple_bind _ _ _ get_sessions _ (fun _ => True)).
    { apply triple_pure. intros s'. unfold get_sessions.
      destruct (all_bgp_sessions s') eqn:E; simpl; rewrite ?E; auto. }
    intros sessions _. eapply triple_bind; [apply triple_deref|]. intros items _.
    eapply triple_bind; [apply triple_foldM; intros; apply triple_check_device|].
    intros rt _. apply triple_ret. reflexivity. }
  destruct (Hloops _ HI1) as [HI2 Hr].
  rewrite check_bgp_unfold, check_bgp_loops_unfold.
  destruct (loops_after_alloc (PRef (length (heap s))) (with_heap s (heap s ++ [[]])))
    as [[r|e] s2]; simpl in HI2, Hr.
  - destruct r as [fd' rows]. specialize (Hr _ eq_refl). simpl in Hr. subst fd'.
    destruct (triple_check_verdict (heap s) (all_bgp_sessions s) (length (heap s)) s2 HI2)
      as [HI3 _].
    simpl. destruct (check_verdict (PRef (length (heap s))) s2) as [o3 s3].
    simpl in HI3 |- *. destruct HI3 as (Hf & Hs & _). split; assumption.
  - destruct HI2 as (Hf & Hs & _). split; assumption.
Qed.

(** ** Code bug: [results_table] is shared by all devices *)

(** C2: [results_table = []] is run once, before the device loop, and the
    table logged after each device is the whole [results_table]: on
    [ex_two] the table logged for R2 also holds the row of R1's
    neighbor. *)
Theorem results_table_accumulates :
  nth_error (log (snd (check_bgp (state_with ex_two)))) 2 =
    Some (LInfo (header "R2")) /\
  nth_error (log (snd (check_bgp (state_with ex_two)))) 3 =
    Some (LTable [mkRow "default" "10.0.0.1" (PStr "Established") "Passed";
                  mkRow "default" "10.0.0.2" (PStr "Idle") "Failed"]).
Proof. vm_compute. split; reflexivity. Qed.

(** ** Witnesses *)

Lemma check_neighbor_verdict_witness :
  INV [ex_props] 1 [] ex_nbr_state /\ rd [ex_props] (PRef 0) = Some ex_props /\
  (forall x, aget ex_props "session_state" = Some (PStr x) ->
     exists s' r, check_neighbor (PRef 1) "R2" "default" [] ("10.0.0.2", PRef 0) ex_nbr_state
                    = (inl ([] ++ [r]), s') /\
       (r_result r = "Passed" <-> lower x = "established") /\
       (r_result r <> "Passed" <-> r_result r = "Failed")) /\
  (aget ex_props "session_state" = None ->
     exists s' r, check_neighbor (PRef 1) "R2" "default" [] ("10.0.0.2", PRef 0) ex_nbr_state
                    = (inl ([] ++ [r]), s') /\
       r_state r = PStr "Unknown" /\ r_result r = "Failed").
Proof.
  assert (HI : INV [ex_props] 1 [] ex_nbr_state).
  { split.
    - split; simpl; [lia|]. intros l Hl. destruct l; [reflexivity|simpl in Hl; lia].
    - exists []. split; [reflexivity|]. split; [constructor|].
      split; [constructor; [simpl; tauto|constructor]|].
      constructor; [simpl; lia|constructor]. }
  assert (Hr : rd [ex_props] (PRef 0) = Some ex_props) by reflexivity.
  split; [exact HI|]. split; [exact Hr|].
  exact (check_neighbor_verdict [ex_props] 1 [] ex_nbr_state "R2" "default" []
           "10.0.0.2" (PRef 0) ex_props HI Hr).
Defined.

Lemma failure_index_exact_witness :
  all_bgp_sessions ex_dup_state = Some (sessions_of ex_dup_state) /\
  occurrences (heap ex_dup_state) (sessions_of ex_dup_state)
    = Some (groups_of ex_dup_state) /\
  exists fd rows s', check_bgp_loops ex_dup_state = (inl (fd, rows), s') /\
    fi_view (heap s') fd = Some (fi_of (groups_of ex_dup_state)) /\
    (forall d, aget (fi_of (groups_of ex_dup_state)) d <> None <->
       exists o, In o (all_occs (groups_of ex_dup_state)) /\ o_dev o = d /\
                 fails o = true) /\
    (forall d inner, aget (fi_of (groups_of ex_dup_state)) d = Some inner ->
       forall n, aget inner n <> None <->
         exists o, In o (all_occs (groups_of ex_dup_state)) /\ o_dev o = d /\
                   o_nbr o = n /\ fails o = true).
Proof.
  assert (H1 : all_bgp_sessions ex_dup_state = Some (sessions_of ex_dup_state))
    by (vm_compute; reflexivity).
  assert (H2 : occurrences (heap ex_dup_state) (sessions_of ex_dup_state)
                 = Some (groups_of ex_dup_state)) by (vm_compute; reflexivity).
  split; [exact H1|]. split; [exact H2|].
  exact (failure_index_exact ex_dup_state _ _ H1 H2).
Defined.

Lemma check_bgp_outcome_witness :
  wf_heap (heap ex_dup_state) = true /\
  all_bgp_sessions ex_dup_state = Some (sessions_of ex_dup_state) /\
  rd (heap ex_dup_state) (sessions_of ex_dup_state) = Some (items_of ex_dup_state) /\
  occurrences (heap ex_dup_state) (sessions_of ex_dup_state)
    = Some (groups_of ex_dup_state) /\
  fi_json_error (heap ex_dup_state) (fi_of (groups_of ex_dup_state)) = None /\
  exists sig s', check_bgp ex_dup_state = (inr sig, s') /\
    headers_of (device_logs [] (groups_of ex_dup_state))
      = map (fun dp => header (fst dp)) (items_of ex_dup_state) /\
    (fi_json_error (heap ex_dup_state) (fi_of (groups_of ex_dup_state)) = None ->
       ((exists m, result_of_signal (inr sig) = RFailed m) <->
          fi_of (groups_of ex_dup_state) <> []) /\
       (result_of_signal (inr sig) = RPassed <-> fi_of (groups_of ex_dup_state) = []) /\
       log s' = log ex_dup_state ++ device_logs [] (groups_of ex_dup_state)
                  ++ dump_log (fi_of (groups_of ex_dup_state)) /\
       (fi_of (groups_of ex_dup_state) <> [] ->
          dump_log (fi_of (groups_of ex_dup_state))
            = [LDump (fi_of (groups_of ex_dup_state))])) /\
    (forall e, fi_json_error (heap ex_dup_state) (fi_of (groups_of ex_dup_state)) = Some e ->
       fi_of (groups_of ex_dup_state) <> [] /\ (e = "TypeError" \/ e = "ValueError") /\
       sig = SErrored e /\
       log s' = log ex_dup_state ++ device_logs [] (groups_of ex_dup_state)) /\
    (all_occs (groups_of ex_dup_state) = [] ->
       fi_of (groups_of ex_dup_state) = [] /\
       sig = SPassed "All BGP neighbors are established.").
Proof.
  assert (H0 : wf_heap (heap ex_dup_state) = true) by (vm_compute; reflexivity).
  assert (H1 : all_bgp_sessions ex_dup_state = Some (sessions_of ex_dup_state))
    by (vm_compute; reflexivity).
  assert (H2 : rd (heap ex_dup_state) (sessions_of ex_dup_state)
                 = Some (items_of ex_dup_state)) by (vm_compute; reflexivity).
  assert (H3 : occurrences (heap ex_dup_state) (sessions_of ex_dup_state)
                 = Some (groups_of ex_dup_state)) by (vm_compute; reflexivity).
  assert (H4 : fi_json_error (heap ex_dup_state) (fi_of (groups_of ex_dup_state)) = None)
    by (vm_compute; reflexivity).
  split; [exact H0|]. split; [exact H1|]. split; [exact H2|]. split; [exact H3|].
  split; [exact H4|].
  exact (check_bgp_outcome ex_dup_state _ _ _ H0 H1 H2 H3).
Defined.

Lemma check_bgp_idempotent_witness :
  wf_heap (heap ex_dup_state) = true /\
  all_bgp_sessions ex_dup_state = Some (sessions_of ex_dup_state) /\
  occurrences (heap ex_dup_state) (sessions_of ex_dup_state)
    = Some (groups_of ex_dup_state) /\
  (exists fd1 rows1 s1 fd2 rows2 s2,
     check_bgp_loops ex_dup_state = (inl (fd1, rows1), s1) /\
     check_bgp_loops s1 = (inl (fd2, rows2), s2) /\
     rows1 = rows2 /\ fi_view (heap s1) fd1 = fi_view (heap s2) fd2 /\
     exists ext, log s1 = log ex_dup_state ++ ext /\ log s2 = log s1 ++ ext) /\
  (exists o1 t1 o2 t2,
     check_bgp ex_dup_state = (o1, t1) /\ check_bgp t1 = (o2, t2) /\ o1 = o2 /\
     exists ext, log t1 = log ex_dup_state ++ ext /\ log t2 = log t1 ++ ext).
Proof.
  assert (H1 : all_bgp_sessions ex_dup_state = Some (sessions_of ex_dup_state))
    by (vm_compute; reflexivity).
  assert (H2 : occurrences (heap ex_dup_state) (sessions_of ex_dup_state)
                 = Some (groups_of ex_dup_state)) by (vm_compute; reflexivity).
  assert (H0 : wf_heap (heap ex_dup_state) = true) by (vm_compute; reflexivity).
  split; [exact H0|]. split; [exact H1|]. split; [exact H2|].
  exact (check_bgp_idempotent ex_dup_state _ _ H0 H1 H2).
Defined.

Lemma duplicate_address_last_wins_witness :
  all_bgp_sessions ex_dup_state = Some (sessions_of ex_dup_state) /\
  occurrences (heap ex_dup_state) (sessions_of ex_dup_state)
    = Some (groups_of ex_dup_state) /\
  exists fd s', check_bgp_loops ex_dup_state
                  = (inl (fd, map row_of (all_occs (groups_of ex_dup_state))), s') /\
    fi_view (heap s') fd = Some (fi_of (groups_of ex_dup_state)) /\
    forall d inner, aget (fi_of (groups_of ex_dup_state)) d = Some inner ->
      NoDup (map fst inner) /\
      forall n, aget inner n = last_failing (all_occs (groups_of ex_dup_state)) d n.
Proof.
  assert (H1 : all_bgp_sessions ex_dup_state = Some (sessions_of ex_dup_state))
    by (vm_compute; reflexivity).
  assert (H2 : occurrences (heap ex_dup_state) (sessions_of ex_dup_state)
                 = Some (groups_of ex_dup_state)) by (vm_compute; reflexivity).
  split; [exact H1|]. split; [exact H2|].
  exact (duplicate_address_last_wins ex_dup_state _ _ H1 H2).
Defined.

Lemma missing_levels_zero_neighbors_witness :
  vrfs_missing (heap (state_with (TDict []))) (PRef 0) /\
  (exists s', check_device (PRef 1) [] ("R1", PRef 0) (state_with (TDict []))
                = (inl [], s') /\
     frame (heap (state_with (TDict []))) (heap s') /\
     log s' = log (state_with (TDict [])) ++ [LInfo (header "R1"); LTable []] /\
     rest s' = rest (state_with (TDict []))) /\
  rd (heap (state_with (TDict []))) (PRef 0) = Some [] /\
  aget ([] : dict) "neighbor" = None /\
  (exists s', check_vrf (PRef 1) "R1" [] ("default", PRef 0) (state_with (TDict []))
                = (inl [], s') /\
     frame (heap (state_with (TDict []))) (heap s') /\
     meta s' = meta (state_with (TDict []))).
Proof.
  assert (Hm : vrfs_missing (heap (state_with (TDict []))) (PRef 0)).
  { apply (no_instance _ _ []); reflexivity. }
  assert (Hr : rd (heap (state_with (TDict []))) (PRef 0) = Some []) by reflexivity.
  assert (Hn : aget ([] : dict) "neighbor" = None) by reflexivity.
  split; [exact Hm|].
  split; [exact (proj1 missing_levels_zero_neighbors (PRef 1) [] "R1" (PRef 0)
                   (state_with (TDict [])) Hm)|].
  split; [exact Hr|]. split; [exact Hn|].
  exact (proj2 missing_levels_zero_neighbors (PRef 1) "R1" [] "default" (PRef 0) []
           (state_with (TDict [])) Hr Hn).
Defined.

Lemma connect_stops_at_first_failure_witness :
  Forall (fun d => dev_connect d = None) [mkDevice "R1" None (Some (PStr "bgp-R1"))] /\
  dev_connect (mkDevice "R2" (Some "timeout") None) = Some "timeout" /\
  exists s', connect (ex_testbed (mkDevice "R2" (Some "timeout") None))
               (state_with (TDict [])) =
      (inr (SFailed ("Failed to establish connection to '" ++ "R2"
                     ++ "': " ++ "timeout")%string []), s') /\
    events s' = events (state_with (TDict [])) ++
                map (fun d => EConnect (dev_name d))
                    ([mkDevice "R1" None (Some (PStr "bgp-R1"))] ++
                     [mkDevice "R2" (Some "timeout") None]) /\
    p_devices s' = p_devices (state_with (TDict [])).
Proof.
  assert (Ho : Forall (fun d => dev_connect d = None)
                 [mkDevice "R1" None (Some (PStr "bgp-R1"))])
    by (constructor; [reflexivity|constructor]).
  assert (Hb : dev_connect (mkDevice "R2" (Some "timeout") None) = Some "timeout")
    by reflexivity.
  split; [exact Ho|]. split; [exact Hb|].
  exact (connect_stops_at_first_failure (state_with (TDict []))
           [mkDevice "R1" None (Some (PStr "bgp-R1"))]
           (mkDevice "R2" (Some "timeout") None) "timeout"
           [mkDevice "R3" None (Some (PStr "bgp-R3"))] Ho Hb).
Defined.

Lemma learn_failure_goes_to_cleanup_witness :
  p_devices (mkSt [] [] [] (Some (ex_testbed (mkDevice "R2" None None))) None)
    = Some ([mkDevice "R1" None (Some (PStr "bgp-R1"))] ++
            mkDevice "R2" None None :: [mkDevice "R3" None (Some (PStr "bgp-R3"))]) /\
  Forall (fun d => dev_learn d <> None) [mkDevice "R1" None (Some (PStr "bgp-R1"))] /\
  dev_learn (mkDevice "R2" None None) = None /\
  exists s' sess D,
    run_testcase (mkSt [] [] [] (Some (ex_testbed (mkDevice "R2" None None))) None) =
      ([("learn_bgp", RFailed ("Failed to learn BGP info from device " ++ "R2")%string);
        ("clean_up", RPassed)], s') /\
    events s' = [] ++ map (fun d => ELearn (dev_name d))
                      ([mkDevice "R1" None (Some (PStr "bgp-R1"))] ++
                       [mkDevice "R2" None None]) /\
    all_bgp_sessions s' = Some sess /\ rd (heap s') sess = Some D /\
    (forall k, In k (map fst D) <->
       exists d, In d [mkDevice "R1" None (Some (PStr "bgp-R1"))] /\ dev_name d = k).
Proof.
  assert (Hp : p_devices (mkSt [] [] [] (Some (ex_testbed (mkDevice "R2" None None))) None)
    = Some ([mkDevice "R1" None (Some (PStr "bgp-R1"))] ++
            mkDevice "R2" None None :: [mkDevice "R3" None (Some (PStr "bgp-R3"))]))
    by reflexivity.
  assert (Ho : Forall (fun d => dev_learn d <> None)
                 [mkDevice "R1" None (Some (PStr "bgp-R1"))])
    by (constructor; [simpl; discriminate|constructor]).
  assert (Hb : dev_learn (mkDevice "R2" None None) = None) by reflexivity.
  split; [exact Hp|]. split; [exact Ho|]. split; [exact Hb|].
  exact (learn_failure_goes_to_cleanup
           (mkSt [] [] [] (Some (ex_testbed (mkDevice "R2" None None))) None)
           [mkDevice "R1" None (Some (PStr "bgp-R1"))] (mkDevice "R2" None None)
           [mkDevice "R3" None (Some (PStr "bgp-R3"))] Hp Ho Hb).
Defined.

(** ** Further properties of the script *)

(** *** CommonSetup.connect when every device connects *)

Lemma connect_fold_all ds : forall acc s,
  Forall (fun d => dev_connect d = None) ds ->
  foldM connect_one ds acc s =
    (inl (acc ++ ds),
     mkSt (heap s) (log s ++ map connect_banner ds)
          (events s ++ map (fun d => EConnect (dev_name d)) ds)
          (p_devices s) (all_bgp_sessions s)).
Proof.
  induction ds as [|d ds IH]; intros acc s Hok.
  - simpl. rewrite !app_nil_r. destruct s; reflexivity.
  - inversion Hok as [|? ? Hd Hok']; subst. simpl.
    rewrite (bind_ok _ _ _ _ _ (connect_one_ok acc d s Hd)).
    rewrite IH by exact Hok'. simpl. rewrite <- !app_assoc. reflexivity.
Qed.

(** X1: when no device's [connect()] raises, [connect] passes, attempts
    every device once in testbed order, logs one banner per device, and
    sets [parameters['devices']] to the whole testbed in order. *)
Theorem connect_all_connected testbed s :
  Forall (fun d => dev_connect d = None) testbed ->
  connect testbed s =
    (inl tt, mkSt (heap s) (log s ++ map connect_banner testbed)
                  (events s ++ map (fun d => EConnect (dev_name d)) testbed)
                  (Some testbed) (all_bgp_sessions s)).
Proof.
  intros H. unfold connect.
  rewrite (bind_ok _ _ _ _ _ (connect_fold_all testbed [] s H)). reflexivity.
Qed.

(** *** BGPNeighborsEstablished.learn_bgp when every device is learnt *)

Lemma aget_learned k ds : forall D,
  aget (fold_left learned ds D) k = fold_left (last_step k) ds (aget D k).
Proof.
  induction ds as [|d ds IH]; intros D; simpl; [reflexivity|].
  rewrite IH. f_equal. unfold learned, last_step.
  destruct (dev_learn d) as [i|];
    destruct (String.eqb_spec (dev_name d) k) as [<-|Hne]; try reflexivity.
  - apply aget_aset_same.
  - apply aget_aset_other. exact Hne.
Qed.

Lemma learned_nodup ds : forall D,
  NoDup (map fst D) -> NoDup (map fst (fold_left learned ds D)).
Proof.
  induction ds as [|d ds IH]; intros D HD; simpl; [exact HD|].
  apply IH. unfold learned. destruct (dev_learn d); [apply aset_nodup|]; exact HD.
Qed.

Lemma learn_bgp_ok s ds :
  p_devices s = Some ds -> Forall (fun d => dev_learn d <> None) ds ->
  exists s', learn_bgp s = (inl tt, s') /\
    all_bgp_sessions s' = Some (PRef (length (heap s))) /\
    nth_error (heap s') (length (heap s)) = Some (fold_left learned ds []) /\
    events s' = events s ++ map (fun d => ELearn (dev_name d)) ds /\
    p_devices s' = Some ds.
Proof.
  intros Hp Hok.
  set (L := length (heap s)).
  set (s0 := mkSt (heap s ++ [[]]) (log s) (events s) (Some ds) (Some (PRef L))).
  assert (E0 : learn_bgp s = foldM (learn_one (PRef L)) ds tt s0).
  { unfold learn_bgp, bind, new_dict, set_sessions, get_devices. simpl. rewrite Hp.
    reflexivity. }
  assert (HL0 : nth_error (heap s0) L = Some []).
  { simpl. unfold L. rewrite nth_error_app2, Nat.sub_diag by lia. reflexivity. }
  destruct (learn_prefix L ds s0 [] HL0 Hok) as (s1 & E1 & HL1 & _ & He1 & Hp1 & Hs1).
  exists s1. rewrite E0, E1. split; [reflexivity|]. split; [exact Hs1|].
  split; [exact HL1|]. split; [exact He1|exact Hp1].
Qed.

(** X2: when every device of [parameters['devices']] has [info],
    [learn_bgp] passes, learns the devices once each in order, and leaves
    in [self.all_bgp_sessions] a fresh dict with one key per device name,
    holding the [info] of the last device of that name. *)
Theorem learn_bgp_all_learned s ds :
  p_devices s = Some ds -> Forall (fun d => dev_learn d <> None) ds ->
  exists s' D, learn_bgp s = (inl tt, s') /\
    all_bgp_sessions s' = Some (PRef (length (heap s))) /\
    rd (heap s') (PRef (length (heap s))) = Some D /\
    NoDup (map fst D) /\ (forall k, aget D k = last_info ds k) /\
    events s' = events s ++ map (fun d => ELearn (dev_name d)) ds /\
    p_devices s' = Some ds.
Proof.
  intros Hp Hok.
  destruct (learn_bgp_ok s ds Hp Hok) as (s' & E & Hs & HL & He & Hp').
  exists s', (fold_left learned ds []). split; [exact E|]. split; [exact Hs|].
  split; [exact HL|]. split; [apply learned_nodup; constructor|].
  split; [|split; [exact He|exact Hp']].
  intros k. rewrite aget_learned. reflexivity.
Qed.

(** X3: without [parameters['devices']], [learn_bgp] has already set
    [self.all_bgp_sessions] to a fresh empty dict when the lookup raises
    [KeyError]; a [check_bgp] run after it reports no table and passes. *)
Theorem learn_bgp_without_devices s :
  p_devices s = None ->
  exists s1 s2, learn_bgp s = (inr (SErrored "KeyError"), s1) /\
    all_bgp_sessions s1 = Some (PRef (length (heap s))) /\
    rd (heap s1) (PRef (length (heap s))) = Some [] /\
    check_bgp s1 = (inr (SPassed "All BGP neighbors are established."), s2) /\
    log s2 = log s1.
Proof.
  intros Hp.
  set (L := length (heap s)).
  set (s1 := mkSt (heap s ++ [[]]) (log s) (events s) None (Some (PRef L))).
  assert (E1 : learn_bgp s = (inr (SErrored "KeyError"), s1)).
  { unfold learn_bgp, bind, new_dict, set_sessions, get_devices. simpl. rewrite Hp.
    reflexivity. }
  assert (HL : rd (heap s1) (PRef L) = Some []).
  { simpl. unfold L. rewrite nth_error_app2, Nat.sub_diag by lia. reflexivity. }
  assert (Ho : occurrences (heap s1) (PRef L) = Some []).
  { unfold occurrences, obind. rewrite HL. reflexivity. }
  destruct (check_bgp_spec [] s1 (PRef L) [] eq_refl Ho (frame_nil _) eq_refl
              ltac:(constructor)) as (s2 & E2 & _ & Hl2 & _).
  exists s1, s2. split; [exact E1|]. split; [reflexivity|]. split; [exact HL|].
  split; [exact E2|]. rewrite Hl2. simpl. rewrite app_nil_r. reflexivity.
Qed.

(** *** The testcase when every device is learnt *)


(** *** When check_bgp raises *)

Lemma wf_rd_none h v : wf_val (length h) v = true -> rd h v = None ->
  forall h', rd h' v = None.
Proof.
  destruct v as [s0|l| | |]; simpl; auto. intros Hl Hn. apply Nat.ltb_lt in Hl.
  apply nth_error_None in Hn. lia.
Qed.

Lemma sub_wf h d k x : wf_heap h = true -> sub h d k = Some x ->
  Forall (fun kv => wf_val (length h) (snd kv) = true) x.
Proof.
  intros Hw. unfold sub. destruct (aget d k) as [y|].
  - apply wf_rd. exact Hw.
  - intros H. injection H as <-. constructor.
Qed.

Lemma aget_wf n (d : dict) k y :
  Forall (fun kv => wf_val n (snd kv) = true) d -> aget d k = Some y -> wf_val n y = true.
Proof.
  induction 1 as [|[k' v'] d Hv Hd IH]; simpl; [discriminate|].
  destruct (String.eqb k k'); [intros H; injection H as <-; exact Hv|exact IH].
Qed.

Lemma sub_none h d k : Forall (fun kv => wf_val (length h) (snd kv) = true) d ->
  sub h d k = None -> exists y, aget d k = Some y /\ forall h', rd h' y = None.
Proof.
  intros Hd. unfold sub. destruct (aget d k) as [y|] eqn:E; [|discriminate].
  intros Hn. exists y. split; [reflexivity|].
  apply (wf_rd_none h); [eapply aget_wf; eauto|exact Hn].
Qed.

Lemma py_get_err v k dflt s : rd (heap s) v = None ->
  py_get v k dflt s = (inr (SErrored "AttributeError"), s).
Proof. intros H. unfold py_get, bind, deref. rewrite H. reflexivity. Qed.

Lemma omap_cons_none {A B} (f : A -> option B) x l :
  omap f (x :: l) = None -> f x = None \/ exists y, f x = Some y /\ omap f l = None.
Proof.
  simpl. unfold obind. destruct (f x) as [y|]; [|auto].
  destruct (omap f l); [discriminate|]. intros _. right. exists y. auto.
Qed.

Lemma check_neighbor_err h0 fd s dev vrf rows nbr props :
  frame h0 (heap s) -> wf_val (length h0) props = true -> state_of h0 props = None ->
  raises_attr (check_neighbor fd dev vrf rows (nbr, props)) s.
Proof.
  intros Hfr Hw Hn. unfold state_of, obind in Hn. unfold raises_attr, check_neighbor.
  cbv beta iota zeta.
  destruct (rd h0 props) as [pd|] eqn:Ep.
  - pose proof (rd_frame _ _ _ _ Hfr Ep) as Ep'.
    rewrite (bind_ok _ _ _ _ _
      (py_get_ok props "session_state" (ret (PStr "Unknown")) s pd _ s Ep' eq_refl)).
    destruct (aget pd "session_state") as [[x|l| |b|]|]; try discriminate;
      eexists; reflexivity.
  - exists s. apply bind_err, py_get_err. exact (wf_rd_none _ _ Hw Ep _).
Qed.

Lemma neighbors_err h0 fd dev vrf items : forall F s rows,
  INV h0 fd F s -> Forall (fun kv => wf_val (length h0) (snd kv) = true) items ->
  omap (fun np => obind (state_of h0 (snd np)) (fun s =>
          Some (mkOcc dev vrf (fst np) (snd np) s))) items = None ->
  raises_attr (foldM (check_neighbor (PRef fd) dev vrf) items rows) s.
Proof.
  induction items as [|[nbr props] items IH]; intros F s rows HI Hw Hn; [discriminate|].
  inversion Hw as [|? ? Hw1 Hw2]; subst.
  destruct (omap_cons_none _ _ _ Hn) as [E|(y & E & E')]; simpl in E; unfold obind in E.
  - destruct (state_of h0 props) eqn:Es; [discriminate|].
    destruct (check_neighbor_err h0 (PRef fd) s dev vrf rows nbr props
                (INV_frame _ _ _ _ HI) Hw1 Es) as (s1 & E1).
    exists s1. simpl. apply bind_err. exact E1.
  - destruct (state_of h0 props) as [st0|] eqn:Es; [|discriminate].
    destruct (check_neighbor_spec _ _ _ _ dev vrf rows nbr props _ HI Es)
      as (s1 & E1 & HI1 & _).
    destruct (IH _ _ (rows ++ [row_of (mkOcc dev vrf nbr props st0)]) HI1 Hw2 E')
      as (s2 & E2).
    exists s2. simpl. rewrite (bind_ok _ _ _ _ _ E1). exact E2.
Qed.

Lemma check_vrf_err h0 fd F s dev vp rows :
  INV h0 fd F s -> wf_heap h0 = true -> wf_val (length h0) (snd vp) = true ->
  vrf_occs h0 dev vp = None -> raises_attr (check_vrf (PRef fd) dev rows vp) s.
Proof.
  destruct vp as [vrf_name vrf_data]. simpl. intros HI Hwh Hw Hv.
  pose proof (INV_frame _ _ _ _ HI) as Hfr.
  unfold vrf_occs, neighbors_of, obind in Hv. simpl in Hv.
  unfold raises_attr, check_vrf. cbv beta iota.
  destruct (rd h0 vrf_data) as [d|] eqn:Ed.
  - pose proof (rd_frame _ _ _ _ Hfr Ed) as Ed'. pose proof (wf_rd _ _ _ Hwh Ed) as Hwd.
    destruct (sub h0 d "neighbor") as [nbrs|] eqn:En.
    + destruct (get_sub h0 vrf_data "neighbor" s d nbrs Hfr Ed' En) as (v' & E1 & E2).
      rewrite (bind_ok _ _ _ _ _ E1). unfold py_items.
      rewrite (bind_ok _ _ _ _ _ (deref_ok v' (with_heap s (heap s ++ [[]])) _ E2)).
      exact (neighbors_err h0 fd dev vrf_name nbrs F _ rows (INV_alloc _ _ _ _ HI)
               (sub_wf _ _ _ _ Hwh En) Hv).
    + destruct (sub_none _ _ _ Hwd En) as (y & Hy & Hny).
      rewrite (bind_ok _ _ _ _ _ (py_get_ok _ _ _ _ _ _ _ Ed' (new_dict_eq s))), Hy.
      eexists. apply bind_err. unfold py_items, deref. rewrite Hny. reflexivity.
  - exists s. apply bind_err, py_get_err. exact (wf_rd_none _ _ Hw Ed _).
Qed.

Lemma vrfs_err h0 fd dev vrfs : forall F s rows,
  INV h0 fd F s -> wf_heap h0 = true ->
  Forall (fun kv => wf_val (length h0) (snd kv) = true) vrfs ->
  omap (vrf_occs h0 dev) vrfs = None ->
  raises_attr (foldM (check_vrf (PRef fd) dev) vrfs rows) s.
Proof.
  induction vrfs as [|vp vrfs IH]; intros F s rows HI Hwh Hw Hn; [discriminate|].
  inversion Hw as [|? ? Hw1 Hw2]; subst.
  destruct (omap_cons_none _ _ _ Hn) as [E|(y & E & E')].
  - destruct (check_vrf_err _ _ _ _ _ _ rows HI Hwh Hw1 E) as (s1 & E1).
    exists s1. simpl. apply bind_err. exact E1.
  - destruct (check_vrf_spec _ _ _ _ _ _ _ rows HI E) as (s1 & E1 & HI1 & _).
    destruct (IH _ _ (rows ++ map row_of y) HI1 Hwh Hw2 E') as (s2 & E2).
    exists s2. simpl. rewrite (bind_ok _ _ _ _ _ E1). exact E2.
Qed.

Lemma check_device_err h0 fd F s dp rows :
  INV h0 fd F s -> wf_heap h0 = true -> wf_val (length h0) (snd dp) = true ->
  device_occs h0 dp = None -> raises_attr (check_device (PRef fd) rows dp) s.
Proof.
  destruct dp as [device bgp_info]. simpl. intros HI Hwh Hw Hd.
  pose proof (INV_frame _ _ _ _ HI) as Hfr.
  unfold device_occs, vrfs_of, obind in Hd. simpl in Hd.
  unfold raises_attr, check_device. cbv beta iota.
  destruct (rd h0 bgp_info) as [d0|] eqn:E0.
  2:{ exists s. apply bind_err, py_get_err. exact (wf_rd_none _ _ Hw E0 _). }
  pose proof (rd_frame _ _ _ _ Hfr E0) as E0'.
  destruct (sub h0 d0 "instance") as [di|] eqn:Ei.
  2:{ destruct (sub_none _ _ _ (wf_rd _ _ _ Hwh E0) Ei) as (y & Hy & Hny).
      rewrite (bind_ok _ _ _ _ _ (py_get_ok _ _ _ _ _ _ _ E0' (new_dict_eq s))), Hy.
      eexists. apply bind_err, py_get_err. apply Hny. }
  destruct (get_sub h0 bgp_info "instance" s d0 di Hfr E0' Ei) as (v1 & E1 & R1).
  rewrite (bind_ok _ _ _ _ _ E1).
  set (s1 := with_heap s (heap s ++ [[]])).
  assert (Hfr1 : frame h0 (heap s1)) by (apply frame_app; exact Hfr).
  destruct (sub h0 di "default") as [dd|] eqn:Edf.
  2:{ destruct (sub_none _ _ _ (sub_wf _ _ _ _ Hwh Ei) Edf) as (y & Hy & Hny).
      rewrite (bind_ok _ _ _ _ _ (py_get_ok v1 "default" new_dict s1 di _ _ R1 (new_dict_eq s1))), Hy.
      eexists. apply bind_err, py_get_err. apply Hny. }
  destruct (get_sub h0 v1 "default" s1 di dd Hfr1 R1 Edf) as (v2 & E2 & R2).
  rewrite (bind_ok _ _ _ _ _ E2).
  set (s2 := with_heap s1 (heap s1 ++ [[]])).
  assert (Hfr2 : frame h0 (heap s2)) by (apply frame_app; exact Hfr1).
  destruct (sub h0 dd "vrf") as [vrfs|] eqn:Ev.
  2:{ destruct (sub_none _ _ _ (sub_wf _ _ _ _ Hwh Edf) Ev) as (y & Hy & Hny).
      rewrite (bind_ok _ _ _ _ _ (py_get_ok v2 "vrf" new_dict s2 dd _ _ R2 (new_dict_eq s2))), Hy.
      eexists. apply bind_err. unfold py_items, deref. rewrite Hny. reflexivity. }
  destruct (get_sub h0 v2 "vrf" s2 dd vrfs Hfr2 R2 Ev) as (v3 & E3 & R3).
  rewrite (bind_ok _ _ _ _ _ E3).
  set (s3 := with_heap s2 (heap s2 ++ [[]])).
  unfold py_items. rewrite (bind_ok _ _ _ _ _ (deref_ok v3 s3 _ R3)).
  assert (HI3 : INV h0 fd F s3) by (apply INV_alloc, INV_alloc, INV_alloc; exact HI).
  destruct (omap (vrf_occs h0 device) vrfs) as [oss|] eqn:Eo; [discriminate|].
  destruct (vrfs_err h0 fd device vrfs F s3 rows HI3 Hwh (sub_wf _ _ _ _ Hwh Ev) Eo)
    as (s4 & E4).
  exists s4. apply bind_err. exact E4.
Qed.

Lemma devices_err h0 fd items : forall F s rows,
  INV h0 fd F s -> wf_heap h0 = true ->
  Forall (fun kv => wf_val (length h0) (snd kv) = true) items ->
  omap (fun dp => obind (device_occs h0 dp) (fun os => Some (fst dp, os))) items = None ->
  raises_attr (foldM (check_device (PRef fd)) items rows) s.
Proof.
  induction items as [|dp items IH]; intros F s rows HI Hwh Hw Hn; [discriminate|].
  inversion Hw as [|? ? Hw1 Hw2]; subst.
  destruct (omap_cons_none _ _ _ Hn) as [E|(y & E & E')]; unfold obind in E.
  - destruct (device_occs h0 dp) eqn:Ed; [discriminate|].
    destruct (check_device_err _ _ _ _ _ rows HI Hwh Hw1 Ed) as (s1 & E1).
    exists s1. simpl. apply bind_err. exact E1.
  - destruct (device_occs h0 dp) as [os|] eqn:Ed; [|discriminate].
    destruct (check_device_spec _ _ _ _ _ _ rows HI Ed) as (s1 & E1 & HI1 & _).
    destruct (IH _ _ (rows ++ map row_of os) HI1 Hwh Hw2 E') as (s2 & E2).
    exists s2. simpl. rewrite (bind_ok _ _ _ _ _ E1). exact E2.
Qed.

Lemma check_bgp_loops_err s sessions :
  wf_heap (heap s) = true -> all_bgp_sessions s = Some sessions ->
  wf_val (length (heap s)) sessions = true ->
  occurrences (heap s) sessions = None -> raises_attr check_bgp_loops s.
Proof.
  intros Hwh Hs Hw Ho. unfold occurrences, obind in Ho.
  unfold raises_attr, check_bgp_loops.
  rewrite (bind_ok _ _ _ _ _ (new_dict_eq s)).
  set (s1 := with_heap s (heap s ++ [[]])).
  assert (Eg : get_sessions s1 = (inl sessions, s1))
    by (unfold get_sessions; simpl; rewrite Hs; reflexivity).
  rewrite (bind_ok _ _ _ _ _ Eg). unfold py_items.
  destruct (rd (heap s) sessions) as [items|] eqn:Ei.
  - assert (HI1 : INV (heap s) (length (heap s)) [] s1).
    { split; [apply frame_app, frame_refl|]. exists []. simpl.
      split; [rewrite nth_error_app2, Nat.sub_diag by lia; reflexivity|].
      split; [constructor|]. split; [constructor; [intros []|constructor]|].
      constructor; [lia|constructor]. }
    rewrite (bind_ok _ _ _ _ _
      (deref_ok _ _ _ (rd_frame _ _ _ _ (INV_frame _ _ _ _ HI1) Ei))).
    destruct (devices_err _ _ _ [] s1 [] HI1 Hwh (wf_rd _ _ _ Hwh Ei) Ho) as (s2 & E2).
    exists s2. apply bind_err. exact E2.
  - exists s1. apply bind_err. unfold deref. rewrite (wf_rd_none _ _ Hw Ei). reflexivity.
Qed.

(** X5: on a heap whose references all point to objects, [check_bgp]
    raises [AttributeError] exactly when some snapshot level it reads is
    present but not a dict, or some [session_state] is present but is
    neither a str nor a bytes object (the reading [occurrences] fails).
    Every exception it raises is that [AttributeError], or the
    [TypeError] or [ValueError] of [json.dumps]. *)
Theorem check_bgp_attribute_error s sessions :
  wf_heap (heap s) = true -> all_bgp_sessions s = Some sessions ->
  wf_val (length (heap s)) sessions = true ->
  ((exists s', check_bgp s = (inr (SErrored "AttributeError"), s')) <->
   occurrences (heap s) sessions = None) /\
  (forall e s', check_bgp s = (inr (SErrored e), s') ->
     e = "AttributeError" \/ e = "TypeError" \/ e = "ValueError").
Proof.
  intros Hwh Hs Hw.
  destruct (occurrences (heap s) sessions) as [groups|] eqn:Ho.
  - destruct (check_bgp_spec_wf _ _ _ Hwh Hs Ho) as (s' & E & _).
    assert (Hk : forall e, bgp_signal (heap s) (fi_of groups) = SErrored e ->
                   e = "TypeError" \/ e = "ValueError").
    { intros e. unfold bgp_signal.
      destruct (fi_json_error (heap s) (fi_of groups)) as [e'|] eqn:Ej.
      - intros H. injection H as <-. exact (proj2 (fi_json_error_kinds _ _ _ Ej)).
      - unfold verdict_signal. destruct (fi_of groups); discriminate. }
    rewrite E. split.
    + split; [|discriminate]. intros (s'' & H). injection H as H _.
      destruct (Hk _ H) as [Ht|Ht]; discriminate.
    + intros e s'' H. injection H as H _. right. exact (Hk _ H).
  - destruct (check_bgp_loops_err _ _ Hwh Hs Hw Ho) as (s1 & E1).
    assert (E : check_bgp s = (inr (SErrored "AttributeError"), s1))
      by (rewrite check_bgp_unfold, E1; reflexivity).
    rewrite E. split; [split; [intros _; reflexivity|intros _; eauto]|].
    intros e s'' H. injection H as <- _. left. reflexivity.
Qed.

(** *** The State and Result columns *)

Lemma lower_ascii_idem c : lower_ascii (lower_ascii c) = lower_ascii c.
Proof. destruct c as [[] [] [] [] [] [] [] []]; reflexivity. Qed.

Lemma lower_idem x : lower (lower x) = lower x.
Proof. induction x as [|c x IH]; simpl; [reflexivity|]. rewrite lower_ascii_idem, IH. reflexivity. Qed.

Lemma upper_lower_E c : upper_ascii (lower_ascii c) = "E"%char -> lower_ascii c = "e"%char.
Proof.
  destruct c as [[] [] [] [] [] [] [] []]; vm_compute; intros H;
    first [reflexivity | discriminate H].
Qed.

Lemma capitalize_lower_established x :
  capitalize (lower x) = "Established" <-> lower x = "established".
Proof.
  split; [|intros ->; reflexivity].
  destruct x as [|c x]; simpl; [discriminate|].
  intros H. injection H as Hc Hx. rewrite lower_idem in Hx.
  rewrite (upper_lower_E _ Hc), Hx. reflexivity.
Qed.

Lemma row_of_columns o :
  (r_result (row_of o) = "Passed" <-> r_state (row_of o) = PStr "Established") /\
  (r_result (row_of o) = "Passed" \/ r_result (row_of o) = "Failed").
Proof.
  unfold row_of. simpl.
  destruct (o_state o) as [x|l| |b|]; simpl;
    try (split; [split; discriminate|right; reflexivity]).
  assert (Hc : PStr (capitalize (lower x)) = PStr "Established" <->
               lower x = "established").
  { rewrite <- capitalize_lower_established.
    split; [intros H; injection H as H; exact H|intros ->; reflexivity]. }
  rewrite Hc.
  destruct (String.eqb_spec (lower x) "established") as [E|E].
  - split; [tauto|left; reflexivity].
  - split; [split; [discriminate|intros H; contradiction]|right; reflexivity].
Qed.

(** X6: every row of [results_table] has the result [Passed] or [Failed],
    and shows the state [Established] exactly when its result is
    [Passed]. *)
Theorem row_state_matches_result s sessions groups :
  all_bgp_sessions s = Some sessions -> occurrences (heap s) sessions = Some groups ->
  exists fd rows s', check_bgp_loops s = (inl (fd, rows), s') /\
    forall r, In r rows ->
      (r_result r = "Passed" <-> r_state r = PStr "Established") /\
      (r_result r = "Passed" \/ r_result r = "Failed").
Proof.
  intros Hs Ho. destruct (check_bgp_loops_spec _ _ _ Hs Ho) as (s' & E & _).
  do 3 eexists. split; [exact E|].
  intros r Hr. apply in_map_iff in Hr as (o & <- & _). apply row_of_columns.
Qed.

(** ** Witnesses of the further properties *)

Lemma connect_all_connected_witness :
  Forall (fun d => dev_connect d = None)
         [mkDevice "R1" None None; mkDevice "R2" None None] /\
  connect [mkDevice "R1" None None; mkDevice "R2" None None] (state_with (TDict [])) =
    (inl tt, mkSt (heap (state_with (TDict [])))
                  (log (state_with (TDict [])) ++
                   map connect_banner [mkDevice "R1" None None; mkDevice "R2" None None])
                  (events (state_with (TDict [])) ++
                   map (fun d => EConnect (dev_name d))
                       [mkDevice "R1" None None; mkDevice "R2" None None])
                  (Some [mkDevice "R1" None None; mkDevice "R2" None None])
                  (all_bgp_sessions (state_with (TDict [])))).
Proof.
  assert (H : Forall (fun d => dev_connect d = None)
                [mkDevice "R1" None None; mkDevice "R2" None None])
    by (repeat constructor).
  split; [exact H|].
  exact (connect_all_connected _ (state_with (TDict [])) H).
Defined.

Lemma learn_bgp_all_learned_witness :
  p_devices (mkSt [] [] [] (Some [mkDevice "R1" None (Some (PStr "a"));
                                  mkDevice "R2" None (Some (PStr "b"));
                                  mkDevice "R1" None (Some (PStr "c"))]) None)
    = Some [mkDevice "R1" None (Some (PStr "a")); mkDevice "R2" None (Some (PStr "b"));
            mkDevice "R1" None (Some (PStr "c"))] /\
  Forall (fun d => dev_learn d <> None)
    [mkDevice "R1" None (Some (PStr "a")); mkDevice "R2" None (Some (PStr "b"));
     mkDevice "R1" None (Some (PStr "c"))] /\
  exists s' D,
    learn_bgp (mkSt [] [] [] (Some [mkDevice "R1" None (Some (PStr "a"));
                                    mkDevice "R2" None (Some (PStr "b"));
                                    mkDevice "R1" None (Some (PStr "c"))]) None)
      = (inl tt, s') /\
    all_bgp_sessions s' = Some (PRef 0) /\ rd (heap s') (PRef 0) = Some D /\
    NoDup (map fst D) /\
    (forall k, aget D k = last_info [mkDevice "R1" None (Some (PStr "a"));
                                     mkDevice "R2" None (Some (PStr "b"));
                                     mkDevice "R1" None (Some (PStr "c"))] k) /\
    events s' = [] ++ map (fun d => ELearn (dev_name d))
                      [mkDevice "R1" None (Some (PStr "a"));
                       mkDevice "R2" None (Some (PStr "b"));
                       mkDevice "R1" None (Some (PStr "c"))] /\
    p_devices s' = Some [mkDevice "R1" None (Some (PStr "a"));
                         mkDevice "R2" None (Some (PStr "b"));
                         mkDevice "R1" None (Some (PStr "c"))].
Proof.
  assert (Hp : p_devices (mkSt [] [] [] (Some [mkDevice "R1" None (Some (PStr "a"));
                                  mkDevice "R2" None (Some (PStr "b"));
                                  mkDevice "R1" None (Some (PStr "c"))]) None)
    = Some [mkDevice "R1" None (Some (PStr "a")); mkDevice "R2" None (Some (PStr "b"));
            mkDevice "R1" None (Some (PStr "c"))]) by reflexivity.
  assert (Ho : Forall (fun d => dev_learn d <> None)
    [mkDevice "R1" None (Some (PStr "a")); mkDevice "R2" None (Some (PStr "b"));
     mkDevice "R1" None (Some (PStr "c"))])
    by (repeat constructor; simpl; discriminate).
  split; [exact Hp|]. split; [exact Ho|].
  exact (learn_bgp_all_learned _ _ Hp Ho).
Defined.

Lemma learn_bgp_without_devices_witness :
  p_devices (mkSt [] [] [] None None) = None /\
  exists s1 s2, learn_bgp (mkSt [] [] [] None None) = (inr (SErrored "KeyError"), s1) /\
    all_bgp_sessions s1 = Some (PRef 0) /\
    rd (heap s1) (PRef 0) = Some [] /\
    check_bgp s1 = (inr (SPassed "All BGP neighbors are established."), s2) /\
    log s2 = log s1.
Proof.
  assert (Hp : p_devices (mkSt [] [] [] None None) = None) by reflexivity.
  split; [exact Hp|].
  exact (learn_bgp_without_devices _ Hp).
Defined.


Lemma check_bgp_attribute_error_witness :
  wf_heap (heap ex_bad_state) = true /\
  all_bgp_sessions ex_bad_state = Some (sessions_of ex_bad_state) /\
  wf_val (length (heap ex_bad_state)) (sessions_of ex_bad_state) = true /\
  ((exists s', check_bgp ex_bad_state = (inr (SErrored "AttributeError"), s')) <->
   occurrences (heap ex_bad_state) (sessions_of ex_bad_state) = None) /\
  (forall e s', check_bgp ex_bad_state = (inr (SErrored e), s') ->
     e = "AttributeError" \/ e = "TypeError" \/ e = "ValueError").
Proof.
  assert (H1 : wf_heap (heap ex_bad_state) = true) by (vm_compute; reflexivity).
  assert (H2 : all_bgp_sessions ex_bad_state = Some (sessions_of ex_bad_state))
    by (vm_compute; reflexivity).
  assert (H3 : wf_val (length (heap ex_bad_state)) (sessions_of ex_bad_state) = true)
    by (vm_compute; reflexivity).
  split; [exact H1|]. split; [exact H2|]. split; [exact H3|].
  exact (check_bgp_attribute_error ex_bad_state _ H1 H2 H3).
Defined.

Lemma row_state_matches_result_witness :
  all_bgp_sessions ex_dup_state = Some (sessions_of ex_dup_state) /\
  occurrences (heap ex_dup_state) (sessions_of ex_dup_state)
    = Some (groups_of ex_dup_state) /\
  exists fd rows s', check_bgp_loops ex_dup_state = (inl (fd, rows), s') /\
    forall r, In r rows ->
      (r_result r = "Passed" <-> r_state r = PStr "Established") /\
      (r_result r = "Passed" \/ r_result r = "Failed").
Proof.
  assert (H1 : all_bgp_sessions ex_dup_state = Some (sessions_of ex_dup_state))
    by (vm_compute; reflexivity).
  assert (H2 : occurrences (heap ex_dup_state) (sessions_of ex_dup_state)
                 = Some (groups_of ex_dup_state)) by (vm_compute; reflexivity).
  split; [exact H1|]. split; [exact H2|].
  exact (row_state_matches_result ex_dup_state _ _ H1 H2).
Defined.
